(** * PER/PBR valuation band charts: a model of [main.py]

    The program fetches daily prices and valuation ratios for two tickers,
    joins and filters them, derives five band lines per metric from a
    120-day moving average of EPS or BPS, and draws them.

    Modelling choices.
    - A pandas float is an exact rational ([Q]); the one NaN the program can
      produce by itself, the quantile of an empty column, is [None] of
      [num]. Rounding is not modelled, and equalities between computed
      numbers are stated with [==] on [Q].
    - A [DataFrame] is the list of its rows in index order, the column-less
      [pd.DataFrame()] of the early exits being the empty list; a date is
      the integer YYYYMMDD.
    - The provider ([pykrx.stock]) is a record of two total functions, and
      [main] takes the two dates it reads off the clock as arguments.
    - Console output, saved figures and exceptions are the effects of a
      small writer/error monad [M].
    - pandas, numpy, matplotlib and [sorted] are libraries: [merge],
      [rolling_mean], [quantile] and [sorted_by] follow their documented
      behaviour. *)

From Stdlib Require Import QArith Qround ZArith String List Bool Arith Lia.
From Stdlib Require Import Permutation Sorted Lqa.
Import ListNotations.

Local Open Scope string_scope.
Local Open Scope list_scope.
Local Open Scope Q_scope.

(* ------------------------------------------------------------------ *)
(** ** Numbers *)

(** A float: [None] is NaN. *)
Definition num := option Q.
Definition NaN : num := None.

Definition num_mul (a b : num) : num :=
  match a, b with
  | Some x, Some y => Some (x * y)
  | _, _ => NaN
  end.

Definition Qltb (x y : Q) : bool := negb (Qle_bool y x).

(** Python's [<] on floats: every comparison with NaN is false. *)
Definition num_ltb (a b : num) : bool :=
  match a, b with
  | Some x, Some y => Qltb x y
  | _, _ => false
  end.

Definition num_eqb (a b : num) : bool :=
  match a, b with
  | Some x, Some y => Qeq_bool x y
  | _, _ => false
  end.

(** Equality of values (NaN only matches NaN here, as a position marker). *)
Definition num_eq (a b : num) : Prop :=
  match a, b with
  | Some x, Some y => x == y
  | None, None => True
  | _, _ => False
  end.

Definition is_finite (a : num) : Prop := exists x, a = Some x.

Definition of_nat (n : nat) : Q := inject_Z (Z.of_nat n).

Fixpoint Qsum (l : list Q) : Q :=
  match l with
  | [] => 0
  | x :: r => x + Qsum r
  end.

(** Arithmetic mean of a non-empty list. *)
Definition mean (l : list Q) : Q := Qsum l / of_nat (length l).

(** The last [n] elements of a list (all of it when it is shorter). *)
Definition last_n {A} (n : nat) (l : list A) : list A :=
  skipn (length l - n) l.

(* ------------------------------------------------------------------ *)
(** ** Effects: console, saved figures, exceptions *)

Inductive exn :=
| KeyError (key : string)
| IndexError
| ValueError.

Inductive message :=
| MsgNoPrice (ticker : string)
| MsgNoFundamental (ticker : string)
| MsgPeriod (start_date end_date : string)
| MsgRule
| MsgProcessing (name ticker : string)
| MsgSkipped (name : string)
| MsgCollected (rows : nat) (first_date last_date : Z)
| MsgCurrentRatio (per pbr : Q)
| MsgCurrentClose (close : Q)
| MsgChartDone (filename name metric : string)
| MsgAllDone.

(** What [plot_band_chart] puts on the axes, in drawing order. *)
Inductive draw :=
| FillBetween (low high : list num) (color : string)
| PlotBand (line : list num) (metric : string) (multiple : num)
           (label color : string)
| PlotPrice (close : list Q) (name : string)
| Annotate (last_date : Z) (last_price last_metric : Q)
| Title (name metric : string).

Inductive event :=
| Print (m : message)
| SaveFig (filename : string) (figure : list draw).

(** Output so far, and an exception or a value. *)
Definition M (A : Type) : Type := (list event * (exn + A))%type.

Definition ret {A} (x : A) : M A := ([], inr x).

Definition bind {A B} (m : M A) (f : A -> M B) : M B :=
  match m with
  | (out, inl e) => (out, inl e)
  | (out, inr x) => let (out', r) := f x in (out ++ out', r)
  end.

Definition raise {A} (e : exn) : M A := ([], inl e).
Definition emit (ev : event) : M unit := ([ev], inr tt).
Definition print (m : message) : M unit := emit (Print m).

Declare Scope monad_scope.
Delimit Scope monad_scope with monad.
Notation "x <- c1 ;; c2" := (bind c1 (fun x => c2))
  (at level 61, c1 at next level, right associativity) : monad_scope.
Notation "c1 ;; c2" := (bind c1 (fun _ => c2))
  (at level 61, right associativity) : monad_scope.
Local Open Scope monad_scope.

Definition output {A} (m : M A) : list event := fst m.
Definition outcome {A} (m : M A) : exn + A := snd m.

(** A [for] loop whose body has effects only. *)
Fixpoint for_each {A} (body : A -> M unit) (l : list A) : M unit :=
  match l with
  | [] => ret tt
  | x :: rest => body x ;; for_each body rest
  end.

(** A [for] loop that updates an accumulator. *)
Fixpoint fold_M {A S} (body : S -> A -> M S) (l : list A) (s : S) : M S :=
  match l with
  | [] => ret s
  | x :: rest => s' <- body s x ;; fold_M body rest s'
  end.

Definition saved_files (out : list event) : list string :=
  flat_map (fun ev => match ev with
                      | SaveFig f _ => [f]
                      | Print _ => []
                      end) out.

(* ------------------------------------------------------------------ *)
(** ** Python containers *)

(** A [dict] with string keys, in insertion order; assigning to a key that
    is present keeps its position. *)
Definition dict (V : Type) := list (string * V).

Fixpoint dict_set {V} (d : dict V) (k : string) (v : V) : dict V :=
  match d with
  | [] => [(k, v)]
  | (k', v') :: rest =>
      if String.eqb k' k then (k, v) :: rest
      else (k', v') :: dict_set rest k v
  end.

Fixpoint dict_get {V} (d : dict V) (k : string) : M V :=
  match d with
  | [] => raise (KeyError k)
  | (k', v) :: rest => if String.eqb k' k then ret v else dict_get rest k
  end.

Definition items {V} (d : dict V) : list (string * V) := d.

(** [seq[-1]]. *)
Definition last_item {A} (l : list A) : M A :=
  match l with
  | [] => raise IndexError
  | x :: rest => ret (last rest x)
  end.

(** [seq[0]]. *)
Definition first_item {A} (l : list A) : M A :=
  match l with
  | [] => raise IndexError
  | x :: _ => ret x
  end.

Section StableSort.
Context {A : Type} (ltb : A -> A -> bool).

(** [x] goes in front of the first element that is not smaller than it:
    behind the smaller ones, before its equals. *)
Fixpoint insert_before (x : A) (l : list A) : list A :=
  match l with
  | [] => [x]
  | y :: rest => if ltb y x then y :: insert_before x rest else x :: y :: rest
  end.

Definition sort_with (l : list A) : list A := fold_right insert_before [] l.

End StableSort.

(** [sorted(l, key=key)] with float keys. On keys that are numbers the
    result of a stable sort is determined, and this is it; a list whose
    keys are all NaN is returned as it is, as Python does. Lists that mix
    NaN with numbers, where Python's result depends on its merge strategy,
    do not occur in the program and are outside the properties below. *)
Definition sorted_by {A} (key : A -> num) (l : list A) : list A :=
  sort_with (fun a b => num_ltb (key a) (key b)) l.

(** [zip(l, l[1:])]: the pairs visited by [for i in range(len(l) - 1)]. *)
Fixpoint adjacent {A} (l : list A) : list (A * A) :=
  match l with
  | x :: ((y :: _) as rest) => (x, y) :: adjacent rest
  | _ => []
  end.

(* ------------------------------------------------------------------ *)
(** ** Data *)

(** A row of [df_price[['종가']]]. *)
Record PriceRow := { p_date : Z; p_close : Q }.

(** A row of [df_fundamental[['PER', 'PBR', 'EPS', 'BPS']]]. *)
Record FundRow := { f_date : Z; f_PER : Q; f_PBR : Q; f_EPS : Q; f_BPS : Q }.

(** A row of the merged frame. Every column holds a number: a NaN handed
    over by the provider is outside the model. *)
Record Row := { date : Z; close : Q; PER : Q; PBR : Q; EPS : Q; BPS : Q }.

Definition DataFrame := list Row.

Definition empty {A} (df : list A) : bool :=
  match df with [] => true | _ => false end.

Definition index (df : DataFrame) : list Z := map date df.

(** [df[name]]. *)
Definition column (df : DataFrame) (name : string) : M (list Q) :=
  if String.eqb name "종가" then ret (map close df)
  else if String.eqb name "PER" then ret (map PER df)
  else if String.eqb name "PBR" then ret (map PBR df)
  else if String.eqb name "EPS" then ret (map EPS df)
  else if String.eqb name "BPS" then ret (map BPS df)
  else raise (KeyError name).

(** The market data provider ([pykrx.stock]). *)
Record Adapter := {
  get_market_ohlcv_by_date : string -> string -> string -> list PriceRow;
  get_market_fundamental_by_date : string -> string -> string -> list FundRow
}.

Definition join (p : PriceRow) (f : FundRow) : Row :=
  {| date := p_date p; close := p_close p;
     PER := f_PER f; PBR := f_PBR f; EPS := f_EPS f; BPS := f_BPS f |}.

(** [pd.merge(left, right, left_index=True, right_index=True, how='inner')]:
    one row per pair of rows with the same date, in the order of the left
    frame. *)
Definition merge (left : list PriceRow) (right : list FundRow) : DataFrame :=
  flat_map (fun p => map (join p)
                         (filter (fun f => Z.eqb (f_date f) (p_date p)) right))
           left.

(** [(df['PER'] > 0) & (df['PBR'] > 0) & (df['EPS'] != 0) & (df['BPS'] != 0)]. *)
Definition valid_row (r : Row) : bool :=
  Qltb 0 (PER r) && Qltb 0 (PBR r)
  && negb (Qeq_bool (EPS r) 0) && negb (Qeq_bool (BPS r) 0).

Record StockInfo := { name : string; name_en : string }.

Definition SAMSUNG : string * StockInfo :=
  ("005930", {| name := "삼성전자"; name_en := "Samsung Electronics" |}).

Definition HYNIX : string * StockInfo :=
  ("000660", {| name := "SK하이닉스"; name_en := "SK Hynix" |}).

Definition STOCK_INFO : dict StockInfo := [SAMSUNG; HYNIX].

Definition BAND_QUANTILE : list (Q * string * string) :=
  [ (0.10, "#FF6B6B", "10%");
    (0.25, "#FFB347", "25%");
    (0.50, "#87CEEB", "50%");
    (0.75, "#77DD77", "75%");
    (0.90, "#DDA0DD", "90%") ].

Definition fetch_stock_data (src : Adapter) (ticker start_date end_date : string)
  : M DataFrame :=
  let df_price := get_market_ohlcv_by_date src start_date end_date ticker in
  if empty df_price then
    print (MsgNoPrice ticker) ;; ret []
  else
    let df_fundamental :=
      get_market_fundamental_by_date src start_date end_date ticker in
    if empty df_fundamental then
      print (MsgNoFundamental ticker) ;; ret []
    else
      let df := merge df_price df_fundamental in
      let df := filter valid_row df in
      ret df.

(* ------------------------------------------------------------------ *)
(** ** Rolling mean and quantile *)

(** After a value has entered the window [win] (oldest first) and the
    running sum: the oldest value leaves both once the window holds more
    than [window] values. *)
Definition slide (window : nat) (win : list Q) (sum_x : Q) : list Q * Q :=
  match win with
  | old :: kept =>
      if (window <? length win)%nat then (kept, sum_x - old) else (win, sum_x)
  | [] => (win, sum_x)
  end.

(** [Series.rolling(window, min_periods).mean()], computed the way pandas
    does: a running sum over the current window, to which each new value is
    added and from which the value that leaves the window is subtracted;
    the mean is NaN while fewer than [min_periods] values are in the
    window. *)
Fixpoint roll_mean (window min_periods : nat) (win : list Q) (sum_x : Q)
         (values : list Q) : list num :=
  match values with
  | [] => []
  | x :: rest =>
      let '(win2, sum2) := slide window (win ++ [x]) (sum_x + x) in
      let nobs := length win2 in
      (if (min_periods <=? nobs)%nat && (0 <? nobs)%nat
       then Some (sum2 / of_nat nobs) else NaN)
        :: roll_mean window min_periods win2 sum2 rest
  end.

Definition rolling_mean (window min_periods : nat) (values : list Q) : list num :=
  roll_mean window min_periods [] 0 values.

(** Ascending sort of a column. *)
Definition sort_values (l : list Q) : list Q := sort_with Qltb l.

(** The point of a sorted column at a fractional index: between the
    positions below and above it, at the fractional part of the index. *)
Definition interpolate (sorted : list Q) (virtual_index : Q) : Q :=
  let n := length sorted in
  let lower := Z.to_nat (Qfloor virtual_index) in
  let upper := Nat.min (S lower) (n - 1) in
  let fraction := virtual_index - inject_Z (Qfloor virtual_index) in
  let i := nth lower sorted 0 in
  let j := nth upper sorted 0 in
  i + (j - i) * fraction.

Definition quantile_value (values : list Q) (q : Q) : Q :=
  let sorted := sort_values values in
  interpolate sorted (of_nat (length sorted - 1) * q).

(** [Series.quantile(q)] with the default [interpolation='linear']: the
    point of the sorted values at index [(n - 1) * q]. NaN for an empty
    column, [ValueError] for a [q] outside [0, 1]. *)
Definition quantile (values : list Q) (q : Q) : M num :=
  if Qle_bool 0 q && Qle_bool q 1 then
    match values with
    | [] => ret NaN
    | _ :: _ => ret (Some (quantile_value values q))
    end
  else raise ValueError.

(* ------------------------------------------------------------------ *)
(** ** Band calculator *)

Record Band := { line : list num; multiple : num; color : string }.

(** [series * scalar]. *)
Definition series_mul (s : list num) (m : num) : list num :=
  map (fun x => num_mul x m) s.

(** The two tables of the PER branch: (multiple, color, label). *)
Definition SAMSUNG_MULTIPLES : list (Q * string * string) :=
  [ (8.0, "#FF6B6B", "8x");
    (10.0, "#FFB347", "10x");
    (12.0, "#87CEEB", "12x");
    (15.0, "#77DD77", "15x");
    (20.0, "#DDA0DD", "20x") ].

Definition HYNIX_MULTIPLES : list (Q * string * string) :=
  [ (5.0, "#FF6B6B", "5x");
    (8.0, "#FFB347", "8x");
    (12.0, "#87CEEB", "12x");
    (15.0, "#77DD77", "15x");
    (20.0, "#DDA0DD", "20x") ].

Definition base_col (metric : string) : string :=
  if String.eqb metric "PER" then "EPS" else "BPS".

(** [df[base_col].rolling(window=120, min_periods=1).mean()]. *)
Definition smoothed_base (df : DataFrame) (metric : string) : M (list num) :=
  base <- column df (base_col metric) ;;
  ret (rolling_mean 120 1 base).

Definition calculate_band_line (df : DataFrame) (metric ticker : string)
  : M (dict Band) :=
  let multiple_col := metric in
  smoothed_base <- smoothed_base df metric ;;
  let band_data : dict Band := [] in
  if String.eqb metric "PER" then
    let multiples :=
      if String.eqb ticker "005930" then SAMSUNG_MULTIPLES
      else HYNIX_MULTIPLES in
    ret (fold_left
           (fun band_data '(val, color, label) =>
              let band_line := series_mul smoothed_base (Some val) in
              dict_set band_data label
                {| line := band_line; multiple := Some val; color := color |})
           multiples band_data)
  else
    fold_M
      (fun band_data '(q, color, label) =>
         col <- column df multiple_col ;;
         multiple <- quantile col q ;;
         let band_line := series_mul smoothed_base multiple in
         ret (dict_set band_data label
                {| line := band_line; multiple := multiple; color := color |}))
      BAND_QUANTILE band_data.

(* ------------------------------------------------------------------ *)
(** ** Chart and main loop *)

(** The sort key [lambda x: x[1]['multiple']]. *)
Definition band_key (x : string * Band) : num := multiple (snd x).

(** [ax.fill_between(df.index, data_low['line'], data_high['line'],
    color=data_low['color'])] for two neighbours of the sorted bands. *)
Definition fill_between (pair : (string * Band) * (string * Band)) : draw :=
  let '((_, data_low), (_, data_high)) := pair in
  FillBetween (line data_low) (line data_high) (color data_low).

(** [ax.plot(df.index, data['line'], label=..., color=data['color'])]. *)
Definition plot_line (metric : string) (item : string * Band) : draw :=
  let '(label, data) := item in
  PlotBand (line data) metric (multiple data) label (color data).

(** The drawing steps of [plot_band_chart], from [sorted_band] on: what it
    does with the band set once [calculate_band_line] has returned it. *)
Definition draw_band_chart (df : DataFrame)
           (stock_name metric output_filename : string)
           (band_data : dict Band) : M unit :=
  let sorted_band := sorted_by band_key (items band_data) in
  let fills := map fill_between (adjacent sorted_band) in
  let lines := map (plot_line metric) sorted_band in
  closes <- column df "종가" ;;
  let price := PlotPrice closes stock_name in
  last_date <- last_item (index df) ;;
  last_price <- last_item closes ;;
  metric_col <- column df metric ;;
  last_metric <- last_item metric_col ;;
  let figure := fills ++ lines
                ++ [price; Annotate last_date last_price last_metric;
                    Title stock_name metric] in
  emit (SaveFig output_filename figure) ;;
  print (MsgChartDone output_filename stock_name metric).

Definition plot_band_chart (df : DataFrame)
           (ticker metric output_filename : string) : M unit :=
  info <- dict_get STOCK_INFO ticker ;;
  let stock_name := name info in
  band_data <- calculate_band_line df metric ticker ;;
  draw_band_chart df stock_name metric output_filename band_data.

(** The body of the loop of [main], for one entry of [STOCK_INFO]. *)
Definition process_ticker (src : Adapter) (start_date end_date : string)
           (entry : string * StockInfo) : M unit :=
  let '(ticker, info) := entry in
  print MsgRule ;;
  print (MsgProcessing (name info) ticker) ;;
  print MsgRule ;;
  df <- fetch_stock_data src ticker start_date end_date ;;
  if empty df then
    print (MsgSkipped (name info))
  else
    first_date <- first_item (index df) ;;
    last_date <- last_item (index df) ;;
    print (MsgCollected (length df) first_date last_date) ;;
    last_per <- last_item (map PER df) ;;
    last_pbr <- last_item (map PBR df) ;;
    print (MsgCurrentRatio last_per last_pbr) ;;
    last_close <- last_item (map close df) ;;
    print (MsgCurrentClose last_close) ;;
    let prefix := if String.eqb ticker "005930" then "samsung" else "hynix" in
    plot_band_chart df ticker "PER" (prefix ++ "_per_band.png")%string ;;
    plot_band_chart df ticker "PBR" (prefix ++ "_pbr_band.png")%string.

(** [main], with the two dates it derives from the clock as arguments. *)
Definition main (src : Adapter) (start_date end_date : string) : M unit :=
  print (MsgPeriod start_date end_date) ;;
  for_each (process_ticker src start_date end_date) (items STOCK_INFO) ;;
  print MsgRule ;;
  print MsgAllDone.

(* ------------------------------------------------------------------ *)
(** ** Vocabulary of the properties *)

(** The observations at positions [max 0 (i + 1 - w)] to [i]. *)
Definition trailing_window (w : nat) (xs : list Q) (i : nat) : list Q :=
  skipn (S i - w) (firstn (S i) xs).

(** [smoothed] is the trailing mean of [base] over [w] observations, with
    partial windows at the start. *)
Definition trailing_mean_of (w : nat) (base : list Q) (smoothed : list num)
  : Prop :=
  length smoothed = length base
  /\ (forall i, (i < length base)%nat ->
        num_eq (nth i smoothed NaN) (Some (mean (trailing_window w base i))))
  /\ (forall i, (i < length base)%nat -> (i < w - 1)%nat ->
        trailing_window w base i = firstn (S i) base
        /\ length (trailing_window w base i) = S i)
  /\ (forall i, (i < length base)%nat -> (w - 1 <= i)%nat ->
        length (trailing_window w base i) = w)
  /\ (forall x rest, base = x :: rest -> num_eq (hd NaN smoothed) (Some x)).

(** [ln] is the series [s] multiplied by the scalar [m], position by
    position. *)
Definition pointwise_product (s : list num) (m : num) (ln : list num) : Prop :=
  length ln = length s
  /\ forall i, (i < length s)%nat -> nth i ln NaN = num_mul (nth i s NaN) m.

Definition labels_of (bands : dict Band) : list string := map fst bands.

Definition multiples_of (bands : dict Band) : list num :=
  map (fun x => multiple (snd x)) bands.

(** Every band line of [bands] is [smoothed] times the band's multiple. *)
Definition lines_follow (smoothed : list num) (bands : dict Band) : Prop :=
  Forall (fun x => pointwise_product smoothed (multiple (snd x)) (line (snd x)))
         bands.

(** The values of all band lines at row [i], in the order of the bands. *)
Definition values_at (i : nat) (bands : dict Band) : list num :=
  map (fun x => nth i (line (snd x)) NaN) bands.

(** One band per configured multiple, in the order of the table. *)
Definition fixed_bands (smoothed : list num) (table : list (Q * string * string))
  : dict Band :=
  map (fun '(val, color, label) =>
         (label, {| line := series_mul smoothed (Some val);
                    multiple := Some val; color := color |}))
      table.

(** Order on floats; NaN is not comparable. *)
Definition num_le (a b : num) : Prop :=
  match a, b with
  | Some x, Some y => x <= y
  | _, _ => False
  end.

(** Linear-interpolation quantile, as the specification words it: on the
    values in ascending order, with [h = (n - 1) * p], the order statistic
    of rank [h] when [h] is a whole number, and otherwise the point between
    the order statistics of ranks [floor h] and [ceiling h], at the
    fraction [h - floor h] of the way. *)
Definition linear_quantile (ascending : list Q) (p : Q) : Q :=
  let h := of_nat (length ascending - 1) * p in
  let below := nth (Z.to_nat (Qfloor h)) ascending 0 in
  let above := nth (Z.to_nat (Qceiling h)) ascending 0 in
  let g := h - inject_Z (Qfloor h) in
  if Qeq_bool h (inject_Z (Qfloor h)) then below
  else (1 - g) * below + g * above.

(** The median: the middle value in ascending order, or the mean of the two
    middle values. *)
Definition median (values : list Q) : Q :=
  let s := sort_values values in
  let n := length s in
  if Nat.even n then (nth (n / 2 - 1) s 0 + nth (n / 2) s 0) / 2
  else nth (n / 2) s 0.

(** One band per quantile probability of [BAND_QUANTILE], in its order. *)
Definition quantile_bands (smoothed : list num) (col : list Q) : dict Band :=
  map (fun '(q, color, label) =>
         (label, {| line := series_mul smoothed (Some (quantile_value col q));
                    multiple := Some (quantile_value col q);
                    color := color |}))
      BAND_QUANTILE.

(** The frame [fetch_stock_data] returns. *)
Definition prepared (src : Adapter) (ticker start_date end_date : string)
  : DataFrame :=
  match outcome (fetch_stock_data src ticker start_date end_date) with
  | inr df => df
  | inl _ => []
  end.

(** The three ways a ticker ends up without usable data. *)
Definition no_data (src : Adapter) (ticker start_date end_date : string)
  : Prop :=
  get_market_ohlcv_by_date src start_date end_date ticker = []
  \/ get_market_fundamental_by_date src start_date end_date ticker = []
  \/ prepared src ticker start_date end_date = [].

(** The dashed band lines of a figure, in drawing order. *)
Definition plotted_bands (figure : list draw) : list (string * num * list num) :=
  flat_map (fun d => match d with
                     | PlotBand ln _ m label _ => [(label, m, ln)]
                     | _ => []
                     end) figure.

(** The shaded regions of a figure, in drawing order. *)
Definition filled_regions (figure : list draw) : list (list num * list num) :=
  flat_map (fun d => match d with
                     | FillBetween low high _ => [(low, high)]
                     | _ => []
                     end) figure.

(** A provider with one trading day on which the fundamentals are blank. *)
Definition blank_day_src : Adapter :=
  {| get_market_ohlcv_by_date := fun _ _ _ =>
       [ {| p_date := 20240102; p_close := 79600 |} ];
     get_market_fundamental_by_date := fun _ _ _ =>
       [ {| f_date := 20240102; f_PER := 0; f_PBR := 1.52;
            f_EPS := 0; f_BPS := 52002 |} ] |}.

(** A provider with two trading days of ordinary data. *)
Definition two_day_src : Adapter :=
  {| get_market_ohlcv_by_date := fun _ _ _ =>
       [ {| p_date := 20240102; p_close := 79600 |};
         {| p_date := 20240103; p_close := 77000 |} ];
     get_market_fundamental_by_date := fun _ _ _ =>
       [ {| f_date := 20240102; f_PER := 13.5; f_PBR := 1.52;
            f_EPS := 5777; f_BPS := 52002 |};
         {| f_date := 20240103; f_PER := 13.2; f_PBR := 1.48;
            f_EPS := 5777; f_BPS := 52002 |} ] |}.

(** A provider whose two series have no day in common. *)
Definition disjoint_src : Adapter :=
  {| get_market_ohlcv_by_date := fun _ _ _ =>
       [ {| p_date := 20240102; p_close := 79600 |} ];
     get_market_fundamental_by_date := fun _ _ _ =>
       [ {| f_date := 20240103; f_PER := 13.2; f_PBR := 1.48;
            f_EPS := 5777; f_BPS := 52002 |} ] |}.

(** Two rows of ordinary data. *)
Definition sample_df : DataFrame :=
  [ {| date := 20240102; close := 79600; PER := 13.5; PBR := 1.52;
       EPS := 5777; BPS := 52002 |};
    {| date := 20240103; close := 77000; PER := 13.2; PBR := 1.48;
       EPS := 5777; BPS := 52002 |} ].

(** Five rows whose PBR column is 1, 2, 3, 4, 5. *)
Definition five_row_df : DataFrame :=
  map (fun k => {| date := 20240101 + k; close := 79600; PER := 13.5;
                   PBR := inject_Z k; EPS := 5777; BPS := 52002 |})
      [1; 2; 3; 4; 5]%Z.

(** A band set out of order, two of its bands sharing a multiple. *)
Definition shuffled_bands : dict Band :=
  [ ("high", {| line := [Some 30; Some 33]; multiple := Some 3;
                color := "#DDA0DD" |});
    ("low", {| line := [Some 10; Some 11]; multiple := Some 1;
               color := "#FF6B6B" |});
    ("twin", {| line := [Some 31; Some 34]; multiple := Some 3;
                color := "#87CEEB" |}) ].

(** A row with EPS 10, for the constant series. *)
Definition flat_row : Row :=
  {| date := 20240102; close := 1000; PER := 100; PBR := 2;
     EPS := 10; BPS := 500 |}.

(** A provider without prices for 005930 and with ordinary data for every
    other ticker. *)
Definition hynix_only_src : Adapter :=
  {| get_market_ohlcv_by_date := fun s e ticker =>
       if String.eqb ticker "005930" then []
       else get_market_ohlcv_by_date two_day_src s e ticker;
     get_market_fundamental_by_date :=
       get_market_fundamental_by_date two_day_src |}.


(** The annotations of a figure: date, price and metric value shown. *)
Definition annotations (figure : list draw) : list (Z * Q * Q) :=
  flat_map (fun d => match d with
                     | Annotate last_date last_price last_metric =>
                         [(last_date, last_price, last_metric)]
                     | _ => []
                     end) figure.

(** The solid price lines of a figure. *)
Definition price_lines (figure : list draw) : list (list Q) :=
  flat_map (fun d => match d with
                     | PlotPrice closes _ => [closes]
                     | _ => []
                     end) figure.

(** The figure a [SaveFig] event carries, if the output has exactly one. *)
Definition saved_figure (out : list event) : option (list draw) :=
  match flat_map (fun ev => match ev with
                            | SaveFig _ figure => [figure]
                            | Print _ => []
                            end) out with
  | [figure] => Some figure
  | _ => None
  end.

(* ------------------------------------------------------------------ *)
(** * Properties *)

(** ** The monad *)

Lemma bind_ret {A B} (x : A) (f : A -> M B) : bind (ret x) f = f x.
Proof. unfold bind, ret. destruct (f x) as [out r]. reflexivity. Qed.

Lemma bind_raise {A B} (e : exn) (f : A -> M B) : bind (raise e) f = raise e.
Proof. reflexivity. Qed.

Lemma bind_output_ok {A B} (m : M A) (f : A -> M B) (x : A) :
  outcome m = inr x ->
  bind m f = (output m ++ output (f x), outcome (f x)).
Proof.
  destruct m as [out [e | y]]; simpl; intros H; [discriminate |].
  injection H as ->. destruct (f x); reflexivity.
Qed.

(** ** Sums, means and windows *)

Lemma Qsum_app (a b : list Q) : Qsum (a ++ b) == Qsum a + Qsum b.
Proof.
  induction a as [| x a IH]; simpl.
  - ring.
  - rewrite IH. ring.
Qed.

Lemma of_nat_S (n : nat) : of_nat (S n) == of_nat n + 1.
Proof.
  unfold of_nat. rewrite Nat2Z.inj_succ, <- Z.add_1_r, inject_Z_plus.
  reflexivity.
Qed.

Lemma of_nat_pos (n : nat) : (0 < n)%nat -> 0 < of_nat n.
Proof.
  intros H. unfold of_nat. change 0 with (inject_Z 0).
  rewrite <- Zlt_Qlt. lia.
Qed.

Lemma of_nat_le (n m : nat) : (n <= m)%nat -> of_nat n <= of_nat m.
Proof. intros H. unfold of_nat. rewrite <- Zle_Qle. lia. Qed.

Lemma mean_compat (a b : list Q) (s : Q) :
  a = b -> s == Qsum a -> s / of_nat (length a) == mean b.
Proof. intros -> ->. reflexivity. Qed.

Lemma last_n_length {A} (n : nat) (l : list A) :
  length (last_n n l) = Nat.min n (length l).
Proof. unfold last_n. rewrite length_skipn. lia. Qed.

Lemma last_n_all {A} (n : nat) (l : list A) :
  (length l <= n)%nat -> last_n n l = l.
Proof.
  intros H. unfold last_n. replace (length l - n)%nat with 0%nat by lia.
  reflexivity.
Qed.

Lemma last_n_app {A} (n : nat) (a b : list A) :
  last_n n (last_n n a ++ b) = last_n n (a ++ b).
Proof.
  destruct (Nat.le_gt_cases (length a) n) as [H | H].
  - rewrite (last_n_all n a) by exact H. reflexivity.
  - unfold last_n at 1 3. rewrite !skipn_app, !length_app, last_n_length.
    unfold last_n. rewrite skipn_skipn.
    f_equal; apply (f_equal (fun k => skipn k _)); lia.
Qed.

(** One step of the running window: the window is the last [window] values
    seen, and the running sum is their sum. *)
Lemma slide_spec (window : nat) (win : list Q) (s x : Q) :
  (1 <= window)%nat -> (length win <= window)%nat -> s == Qsum win ->
  exists win2 s2,
    slide window (win ++ [x]) (s + x) = (win2, s2)
    /\ win2 = last_n window (win ++ [x])
    /\ s2 == Qsum win2
    /\ (1 <= length win2 <= window)%nat.
Proof.
  intros Hw Hlen Hs. unfold slide.
  destruct (win ++ [x]) as [| old kept] eqn:E.
  - destruct win; discriminate.
  - assert (Hl : length (old :: kept) = S (length win)).
    { rewrite <- E, length_app. simpl. lia. }
    assert (Hsum : s + x == old + Qsum kept).
    { change (old + Qsum kept) with (Qsum (old :: kept)).
      rewrite <- E, Qsum_app, Hs. simpl. ring. }
    destruct (Nat.ltb_spec window (length (old :: kept))) as [Hlt | Hge].
    + exists kept, (s + x - old). repeat split.
      * unfold last_n. replace (length (old :: kept) - window)%nat with 1%nat by lia.
        reflexivity.
      * rewrite Hsum. ring.
      * simpl in Hl, Hlt. lia.
      * simpl in Hl, Hlt. lia.
    + exists (old :: kept), (s + x). repeat split.
      * symmetry. apply last_n_all. exact Hge.
      * exact Hsum.
      * simpl. lia.
      * exact Hge.
Qed.

Lemma roll_mean_length (w mp : nat) (values win : list Q) (s : Q) :
  length (roll_mean w mp win s values) = length values.
Proof.
  revert win s. induction values as [| x rest IH]; intros win s; simpl.
  - reflexivity.
  - destruct (slide w (win ++ [x]) (s + x)) as [win2 s2]. simpl.
    rewrite IH. reflexivity.
Qed.

(** The incremental computation yields, at every position, the mean of the
    last [window] values seen so far. *)
Lemma roll_mean_nth (w : nat) (values win : list Q) (s : Q) (i : nat) :
  (1 <= w)%nat -> (length win <= w)%nat -> s == Qsum win ->
  (i < length values)%nat ->
  exists v, nth_error (roll_mean w 1 win s values) i = Some (Some v)
            /\ v == mean (last_n w (win ++ firstn (S i) values)).
Proof.
  intros Hw. revert win s i.
  induction values as [| x rest IH]; intros win s i Hlen Hs Hi; simpl in Hi.
  - lia.
  - destruct (slide_spec w win s x Hw Hlen Hs) as (win2 & s2 & E & Hwin & Hs2 & Hl).
    cbn [roll_mean]. rewrite E.
    destruct i as [| i].
    + cbn [nth_error].
      destruct (Nat.leb_spec 1 (length win2)); [| lia].
      destruct (Nat.ltb_spec 0 (length win2)); [| lia].
      cbn [andb]. eexists. split; [reflexivity |].
      apply mean_compat; [| exact Hs2].
      rewrite Hwin. destruct rest; reflexivity.
    + cbn [nth_error].
      destruct (IH win2 s2 i) as (v & Hv & Hm); [lia | exact Hs2 | lia |].
      exists v. split; [exact Hv |].
      rewrite Hm, Hwin, last_n_app, <- app_assoc. reflexivity.
Qed.

Lemma trailing_window_last_n (w : nat) (xs : list Q) (i : nat) :
  (i < length xs)%nat ->
  last_n w (firstn (S i) xs) = trailing_window w xs i.
Proof.
  intros H. unfold last_n, trailing_window.
  rewrite length_firstn, Nat.min_l by lia. reflexivity.
Qed.

Lemma trailing_window_length (w : nat) (xs : list Q) (i : nat) :
  (i < length xs)%nat ->
  length (trailing_window w xs i) = Nat.min w (S i).
Proof.
  intros H. unfold trailing_window.
  rewrite length_skipn, length_firstn. lia.
Qed.

Lemma mean_singleton (x : Q) : mean [x] == x.
Proof. unfold mean. cbn [Qsum length]. change (of_nat 1) with 1. field. Qed.

Lemma rolling_mean_spec (w : nat) (base : list Q) :
  (1 <= w)%nat -> trailing_mean_of w base (rolling_mean w 1 base).
Proof.
  intros Hw. unfold rolling_mean.
  assert (Hnth : forall i, (i < length base)%nat ->
            num_eq (nth i (roll_mean w 1 [] 0 base) NaN)
                   (Some (mean (trailing_window w base i)))).
  { intros i Hi.
    destruct (roll_mean_nth w base [] 0 i Hw) as (v & Hv & Hm);
      [simpl; lia | reflexivity | exact Hi |].
    rewrite (nth_error_nth _ _ NaN Hv). unfold num_eq.
    change ([] ++ firstn (S i) base) with (firstn (S i) base) in Hm.
    rewrite Hm, trailing_window_last_n by exact Hi.
    reflexivity. }
  split; [apply roll_mean_length |].
  split; [exact Hnth |].
  split.
  { intros i Hi Hlt. split.
    - unfold trailing_window. replace (S i - w)%nat with 0%nat by lia.
      reflexivity.
    - rewrite trailing_window_length by exact Hi. lia. }
  split.
  { intros i Hi Hge. rewrite trailing_window_length by exact Hi. lia. }
  intros x rest ->.
  specialize (Hnth 0%nat ltac:(simpl; lia)).
  replace (trailing_window w (x :: rest) 0) with [x] in Hnth.
  2:{ unfold trailing_window. replace (1 - w)%nat with 0%nat by lia.
      reflexivity. }
  destruct (roll_mean w 1 [] 0 (x :: rest)) as [| [y |] ys];
    cbn [nth hd num_eq] in *; try contradiction.
  rewrite Hnth. apply mean_singleton.
Qed.

(** C1. For both metric selectors the smoothed base is computed without
    error and is the trailing 120-observation arithmetic mean of the base
    column (EPS for PER, BPS for PBR): it is as long as the input series;
    each value is the mean of the observations in the window ending at its
    position; before position 119 that window is everything seen so far,
    one observation at least; and the first value is the first value of the
    base column. *)
Theorem smoothed_base_is_trailing_mean (df : DataFrame) :
  (exists smoothed,
      smoothed_base df "PER" = ret smoothed
      /\ length smoothed = length df
      /\ trailing_mean_of 120 (map EPS df) smoothed)
  /\ (exists smoothed,
         smoothed_base df "PBR" = ret smoothed
         /\ length smoothed = length df
         /\ trailing_mean_of 120 (map BPS df) smoothed).
Proof.
  split; eexists; (split; [reflexivity |]); split.
  - unfold rolling_mean. rewrite roll_mean_length. apply length_map.
  - apply rolling_mean_spec. lia.
  - unfold rolling_mean. rewrite roll_mean_length. apply length_map.
  - apply rolling_mean_spec. lia.
Qed.

(** ** The PER branch *)

Lemma series_mul_pointwise (s : list num) (m : num) :
  pointwise_product s m (series_mul s m).
Proof.
  unfold pointwise_product, series_mul. split.
  - apply length_map.
  - intros i _. change NaN with (num_mul NaN m) at 1.
    apply (map_nth (fun x => num_mul x m)).
Qed.

Lemma fixed_bands_lines (smoothed : list num) table :
  lines_follow smoothed (fixed_bands smoothed table).
Proof.
  unfold lines_follow, fixed_bands. apply Forall_forall. intros x Hx.
  apply in_map_iff in Hx. destruct Hx as ([[val c] l] & <- & _). simpl.
  apply series_mul_pointwise.
Qed.

Lemma calculate_band_line_PER (df : DataFrame) (ticker : string) :
  calculate_band_line df "PER" ticker =
  ret (fixed_bands (rolling_mean 120 1 (map EPS df))
                   (if String.eqb ticker "005930" then SAMSUNG_MULTIPLES
                    else HYNIX_MULTIPLES)).
Proof. destruct (String.eqb ticker "005930") eqn:E; unfold calculate_band_line; rewrite E; reflexivity. Qed.

(** C2. Whatever the prepared series, the PER branch yields for ticker
    005930 exactly the five bands with multiples 8, 10, 12, 15, 20 and for
    ticker 000660 exactly those with multiples 5, 8, 12, 15, 20, and every
    band line is the smoothed EPS series times the band's multiple,
    position by position. *)
Theorem per_bands_fixed_multiples (df : DataFrame) :
  exists smoothed,
    smoothed_base df "PER" = ret smoothed
    /\ (exists bands,
           calculate_band_line df "PER" "005930" = ret bands
           /\ labels_of bands = ["8x"; "10x"; "12x"; "15x"; "20x"]
           /\ multiples_of bands
              = [Some 8.0; Some 10.0; Some 12.0; Some 15.0; Some 20.0]
           /\ lines_follow smoothed bands)
    /\ (exists bands,
           calculate_band_line df "PER" "000660" = ret bands
           /\ labels_of bands = ["5x"; "8x"; "12x"; "15x"; "20x"]
           /\ multiples_of bands
              = [Some 5.0; Some 8.0; Some 12.0; Some 15.0; Some 20.0]
           /\ lines_follow smoothed bands).
Proof.
  exists (rolling_mean 120 1 (map EPS df)). split; [reflexivity |].
  split; eexists; (split; [apply calculate_band_line_PER |]);
    (split; [reflexivity |]); (split; [reflexivity |]);
    apply fixed_bands_lines.
Qed.

(** C9. In the PER branch every ticker other than 005930 gets the
    multiples 5, 8, 12, 15, 20, and for no ticker at all does the branch
    raise or return fewer than five bands. *)
Theorem per_fallback_multiples (df : DataFrame) (ticker : string) :
  (ticker <> "005930" ->
   exists bands,
     calculate_band_line df "PER" ticker = ret bands
     /\ labels_of bands = ["5x"; "8x"; "12x"; "15x"; "20x"]
     /\ multiples_of bands
        = [Some 5.0; Some 8.0; Some 12.0; Some 15.0; Some 20.0])
  /\ (exists bands,
         calculate_band_line df "PER" ticker = ret bands
         /\ length bands = 5%nat).
Proof.
  rewrite calculate_band_line_PER. split.
  - intros H. apply String.eqb_neq in H. rewrite H.
    eexists. repeat split.
  - destruct (String.eqb ticker "005930"); eexists; split; reflexivity.
Qed.

Lemma per_fallback_multiples_witness :
  exists bands,
    calculate_band_line sample_df "PER" "035420" = ret bands
    /\ labels_of bands = ["5x"; "8x"; "12x"; "15x"; "20x"]
    /\ multiples_of bands
       = [Some 5.0; Some 8.0; Some 12.0; Some 15.0; Some 20.0].
Proof.
  apply (proj1 (per_fallback_multiples sample_df "035420")). discriminate.
Defined.

(** ** Constant base column *)

Lemma In_firstn {A} (n : nat) (l : list A) (x : A) :
  In x (firstn n l) -> In x l.
Proof.
  revert l. induction n as [| n IH]; intros [| y l]; simpl; try tauto.
  intros [H | H]; [left; exact H | right; apply IH; exact H].
Qed.

Lemma In_skipn {A} (n : nat) (l : list A) (x : A) :
  In x (skipn n l) -> In x l.
Proof.
  revert l. induction n as [| n IH]; intros [| y l]; simpl; try tauto.
  intros H. right. apply IH. exact H.
Qed.

Lemma Qsum_const (c : Q) (l : list Q) :
  (forall x, In x l -> x == c) -> Qsum l == c * of_nat (length l).
Proof.
  induction l as [| y l IH]; intros H.
  - simpl. unfold of_nat. simpl. ring.
  - cbn [Qsum length]. rewrite of_nat_S, IH, (H y).
    + ring.
    + left. reflexivity.
    + intros x Hx. apply H. right. exact Hx.
Qed.

Lemma mean_const (c : Q) (l : list Q) :
  (forall x, In x l -> x == c) -> l <> [] -> mean l == c.
Proof.
  intros H Hne. unfold mean. rewrite Qsum_const by exact H.
  field. intros E.
  assert (Hpos : 0 < of_nat (length l)).
  { apply of_nat_pos. destruct l; [congruence | simpl; lia]. }
  rewrite E in Hpos. revert Hpos. apply Qlt_irrefl.
Qed.

Lemma rolling_mean_const (w : nat) (c : Q) (base : list Q) (i : nat) :
  (1 <= w)%nat -> (forall x, In x base -> x == c) -> (i < length base)%nat ->
  num_eq (nth i (rolling_mean w 1 base) NaN) (Some c).
Proof.
  intros Hw Hc Hi.
  destruct (rolling_mean_spec w base Hw) as (_ & Hnth & _).
  specialize (Hnth i Hi).
  destruct (nth i (rolling_mean w 1 base) NaN) as [v |]; simpl in *;
    [| contradiction].
  rewrite Hnth. apply mean_const.
  - intros x Hx. apply Hc. unfold trailing_window in Hx.
    apply In_skipn, In_firstn in Hx. exact Hx.
  - intros E. apply (f_equal (@length Q)) in E.
    rewrite trailing_window_length in E by exact Hi. simpl in E. lia.
Qed.

Lemma values_at_fixed_bands (i : nat) (smoothed : list num) table :
  values_at i (fixed_bands smoothed table)
  = map (fun '(val, _, _) => num_mul (nth i smoothed NaN) (Some val)) table.
Proof.
  unfold values_at, fixed_bands. rewrite map_map. apply map_ext.
  intros [[val c] l]. cbn [snd line]. unfold series_mul.
  change NaN with (num_mul NaN (Some val)) at 1.
  apply (map_nth (fun x => num_mul x (Some val))).
Qed.

(** C8. On a 130-row series whose EPS is 10 throughout, the five PER bands
    of ticker 005930 (multiples 8, 10, 12, 15, 20) take the values 80, 100,
    120, 150, 200 at every row from 120 on. *)
Theorem constant_eps_band_values (df : DataFrame) (i : nat) :
  length df = 130%nat ->
  (forall r, In r df -> EPS r == 10) ->
  (120 <= i < 130)%nat ->
  exists bands,
    calculate_band_line df "PER" "005930" = ret bands
    /\ multiples_of bands
       = [Some 8.0; Some 10.0; Some 12.0; Some 15.0; Some 20.0]
    /\ Forall2 num_eq (values_at i bands)
                      [Some 80; Some 100; Some 120; Some 150; Some 200].
Proof.
  intros Hlen Heps Hi. eexists.
  split; [apply calculate_band_line_PER |]. split; [reflexivity |].
  assert (Hs : num_eq (nth i (rolling_mean 120 1 (map EPS df)) NaN) (Some 10)).
  { apply rolling_mean_const.
    - lia.
    - intros x Hx. apply in_map_iff in Hx. destruct Hx as (r & <- & Hr).
      apply Heps. exact Hr.
    - rewrite length_map. lia. }
  rewrite values_at_fixed_bands.
  destruct (nth i (rolling_mean 120 1 (map EPS df)) NaN) as [v |];
    cbn [num_eq] in Hs; [| contradiction].
  cbn [SAMSUNG_MULTIPLES map num_mul].
  repeat constructor; cbn [num_eq]; rewrite Hs; reflexivity.
Qed.

(** ** The stable sort *)

Lemma Qltb_lt (x y : Q) : Qltb x y = true <-> x < y.
Proof.
  unfold Qltb. rewrite negb_true_iff. split.
  - intros H. apply Qnot_le_lt. intros Hle.
    apply Qle_bool_iff in Hle. congruence.
  - intros H. destruct (Qle_bool y x) eqn:E; [| reflexivity].
    apply Qle_bool_iff in E. exfalso. revert H. apply Qle_not_lt. exact E.
Qed.

Lemma Qltb_ge (x y : Q) : Qltb x y = false <-> y <= x.
Proof.
  unfold Qltb. rewrite negb_false_iff. apply Qle_bool_iff.
Qed.

Section StableSortFacts.
Context {A : Type} (ltb : A -> A -> bool).

Lemma insert_before_perm (x : A) (l : list A) :
  Permutation (insert_before ltb x l) (x :: l).
Proof.
  induction l as [| y l IH]; simpl.
  - apply Permutation_refl.
  - destruct (ltb y x).
    + rewrite IH. apply perm_swap.
    + apply Permutation_refl.
Qed.

Lemma sort_with_perm (l : list A) : Permutation (sort_with ltb l) l.
Proof.
  induction l as [| x l IH]; simpl.
  - apply perm_nil.
  - rewrite insert_before_perm. apply perm_skip. exact IH.
Qed.

Lemma sort_with_length (l : list A) : length (sort_with ltb l) = length l.
Proof. apply Permutation_length, sort_with_perm. Qed.

(** A class of elements that contains nothing smaller than its members
    keeps its order. *)
Section Stable.
Variable p : A -> bool.
Hypothesis p_class : forall x y, ltb y x = true -> p x = true -> p y = false.

Lemma insert_before_filter (x : A) (l : list A) :
  filter p (insert_before ltb x l) = filter p (x :: l).
Proof.
  induction l as [| y l IH]; [reflexivity |].
  cbn [insert_before]. destruct (ltb y x) eqn:E; [| reflexivity].
  cbn [filter] in *. rewrite IH.
  destruct (p x) eqn:Px; [| reflexivity].
  rewrite (p_class x y E Px). reflexivity.
Qed.

Lemma sort_with_filter (l : list A) :
  filter p (sort_with ltb l) = filter p l.
Proof.
  induction l as [| x l IH]; [reflexivity |].
  cbn [sort_with fold_right]. rewrite insert_before_filter.
  cbn [filter]. fold (sort_with ltb l). rewrite IH. reflexivity.
Qed.
End Stable.

(** On comparable elements the result is ascending. *)
Section Ascending.
Variable D : A -> Prop.
Variable le : A -> A -> Prop.
Hypothesis le_of_not_lt : forall x y, D x -> D y -> ltb y x = false -> le x y.
Hypothesis le_of_lt : forall x y, D x -> D y -> ltb y x = true -> le y x.
Hypothesis le_trans : forall x y z, le x y -> le y z -> le x z.

Lemma insert_before_sorted (x : A) (l : list A) :
  D x -> Forall D l -> StronglySorted le l ->
  StronglySorted le (insert_before ltb x l).
Proof.
  intros Dx HD Hs. induction Hs as [| y l Hs IH Hy]; simpl.
  - constructor; constructor.
  - inversion HD as [| ? ? Dy HD']; subst.
    destruct (ltb y x) eqn:E.
    + constructor; [apply IH; exact HD' |].
      apply (Permutation_Forall (Permutation_sym (insert_before_perm x l))).
      constructor; [apply le_of_lt; assumption | exact Hy].
    + assert (Hxy : le x y) by (apply le_of_not_lt; assumption).
      constructor; [constructor; assumption |].
      constructor; [exact Hxy |].
      apply Forall_impl with (P := le y); [| exact Hy].
      intros z Hz. apply le_trans with y; assumption.
Qed.

Lemma sort_with_sorted (l : list A) :
  Forall D l -> StronglySorted le (sort_with ltb l).
Proof.
  induction l as [| x l IH]; intros HD; simpl.
  - constructor.
  - inversion HD; subst. apply insert_before_sorted; [assumption | | auto].
    apply (Permutation_Forall (Permutation_sym (sort_with_perm l))).
    assumption.
Qed.
End Ascending.

(** A list in which no element is smaller than its predecessor is left as
    it is. *)
Lemma sort_with_ascending_id (l : list A) :
  Sorted (fun a b => ltb b a = false) l -> sort_with ltb l = l.
Proof.
  induction 1 as [| x l Hs IH Hx]; [reflexivity |].
  cbn [sort_with fold_right]. fold (sort_with ltb l). rewrite IH.
  destruct Hx as [| y l Hxy]; [reflexivity |].
  cbn [insert_before]. rewrite Hxy. reflexivity.
Qed.

End StableSortFacts.

Lemma num_ltb_lt (a b : num) :
  num_ltb a b = true -> exists x y, a = Some x /\ b = Some y /\ x < y.
Proof.
  destruct a as [x |], b as [y |]; simpl; try discriminate.
  intros H. exists x, y. repeat split. apply Qltb_lt. exact H.
Qed.

Lemma num_le_trans (a b c : num) : num_le a b -> num_le b c -> num_le a c.
Proof.
  destruct a, b, c; simpl; try tauto. apply Qle_trans.
Qed.

Section SortedBy.
Context {A : Type} (key : A -> num).

Lemma sorted_by_perm (l : list A) : Permutation (sorted_by key l) l.
Proof. apply sort_with_perm. Qed.

Lemma sorted_by_stable (k : num) (l : list A) :
  filter (fun x => num_eqb (key x) k) (sorted_by key l)
  = filter (fun x => num_eqb (key x) k) l.
Proof.
  apply sort_with_filter. intros x y Hlt Hx.
  apply num_ltb_lt in Hlt. destruct Hlt as (a & b & Ha & Hb & Hab).
  rewrite Ha. rewrite Hb in Hx. destruct k as [k |]; [| reflexivity].
  simpl in *. apply Qeq_bool_iff in Hx.
  destruct (Qeq_bool a k) eqn:E; [| reflexivity].
  apply Qeq_bool_iff in E. rewrite E, Hx in Hab.
  exfalso. revert Hab. apply Qlt_irrefl.
Qed.

Lemma sorted_by_ascending (l : list A) :
  Forall (fun x => is_finite (key x)) l ->
  StronglySorted (fun x y => num_le (key x) (key y)) (sorted_by key l).
Proof.
  apply sort_with_sorted.
  - intros x y [a Ha] [b Hb] H. rewrite Ha, Hb in *. simpl in *.
    apply Qltb_ge. exact H.
  - intros x y [a Ha] [b Hb] H. rewrite Ha, Hb in *. simpl in *.
    apply Qlt_le_weak, Qltb_lt. exact H.
  - intros x y z. apply num_le_trans.
Qed.

Lemma sorted_by_ascending_id (l : list A) :
  StronglySorted (fun x y => num_le (key x) (key y)) l -> sorted_by key l = l.
Proof.
  intros H. apply sort_with_ascending_id.
  apply StronglySorted_Sorted in H.
  induction H as [| x l Hs IH Hx]; constructor; [exact IH |].
  destruct Hx as [| y l Hxy]; constructor.
  destruct (key x) as [a |], (key y) as [b |]; simpl in *; try tauto.
  apply Qltb_ge. exact Hxy.
Qed.
End SortedBy.

(** ** Quantiles *)

Lemma sort_values_perm (l : list Q) : Permutation (sort_values l) l.
Proof. apply sort_with_perm. Qed.

Lemma sort_values_length (l : list Q) : length (sort_values l) = length l.
Proof. apply sort_with_length. Qed.

Lemma sort_values_sorted (l : list Q) : StronglySorted Qle (sort_values l).
Proof.
  apply (sort_with_sorted Qltb (fun _ => True) Qle).
  - intros x y _ _ H. apply Qltb_ge. exact H.
  - intros x y _ _ H. apply Qlt_le_weak, Qltb_lt. exact H.
  - intros x y z. apply Qle_trans.
  - apply Forall_forall. trivial.
Qed.

Lemma sorted_nth_le (s : list Q) :
  StronglySorted Qle s ->
  forall i j, (i <= j < length s)%nat -> nth i s 0 <= nth j s 0.
Proof.
  induction 1 as [| x s Hs IH Hx]; intros i j Hij; simpl in Hij; [lia |].
  destruct j as [| j].
  - replace i with 0%nat by lia. apply Qle_refl.
  - destruct i as [| i]; simpl.
    + rewrite Forall_forall in Hx. apply Hx, nth_In. lia.
    + apply IH. lia.
Qed.

Lemma Qfloor_unique (h : Q) (z : Z) :
  inject_Z z <= h -> h < inject_Z (z + 1) -> Qfloor h = z.
Proof.
  intros Hlo Hhi.
  pose proof (Qfloor_le h) as Fl. pose proof (Qlt_floor h) as Fh.
  assert (H1 : (z < Qfloor h + 1)%Z).
  { rewrite Zlt_Qlt. apply Qle_lt_trans with h; assumption. }
  assert (H2 : (Qfloor h < z + 1)%Z).
  { rewrite Zlt_Qlt. apply Qle_lt_trans with h; assumption. }
  lia.
Qed.

Lemma Qceiling_floor (h : Q) :
  ~ h == inject_Z (Qfloor h) -> Qceiling h = (Qfloor h + 1)%Z.
Proof.
  intros Hne.
  pose proof (Qfloor_le h) as Fl. pose proof (Qlt_floor h) as Fh.
  pose proof (Qle_ceiling h) as Cl. pose proof (Qceiling_lt h) as Ch.
  assert (H1 : (Qceiling h - 1 < Qfloor h + 1)%Z).
  { rewrite Zlt_Qlt. apply Qlt_trans with h; assumption. }
  assert (H2 : (Qfloor h < Qceiling h)%Z).
  { rewrite Zlt_Qlt. apply Qlt_le_trans with h; [| exact Cl].
    apply Qle_lteq in Fl. destruct Fl as [Fl | Fl]; [exact Fl |].
    exfalso. apply Hne. symmetry. exact Fl. }
  lia.
Qed.

(** Facts about the index [(n - 1) * p] for a probability [p]. *)
Section VirtualIndex.
Variable n : nat.
Variable h : Q.
Hypothesis h_nonneg : 0 <= h.
Hypothesis h_max : h <= of_nat (n - 1).

Lemma floor_nonneg : (0 <= Qfloor h)%Z.
Proof. change 0%Z with (Qfloor 0). apply Qfloor_resp_le. exact h_nonneg. Qed.

Lemma floor_max : (Z.to_nat (Qfloor h) <= n - 1)%nat.
Proof.
  pose proof floor_nonneg as H0.
  apply Qfloor_resp_le in h_max. unfold of_nat in h_max.
  rewrite Qfloor_Z in h_max. lia.
Qed.

Lemma floor_of_nat : inject_Z (Qfloor h) = of_nat (Z.to_nat (Qfloor h)).
Proof.
  unfold of_nat. rewrite Z2Nat.id; [reflexivity | apply floor_nonneg].
Qed.

Lemma fraction_bounds :
  0 <= h - inject_Z (Qfloor h) /\ h - inject_Z (Qfloor h) <= 1.
Proof.
  pose proof (Qfloor_le h) as Fl. pose proof (Qlt_floor h) as Fh.
  rewrite inject_Z_plus in Fh. change (inject_Z 1) with 1 in Fh.
  split; lra.
Qed.
End VirtualIndex.

(** Interpolation on an ascending list. *)
Section Interpolate.
Variable s : list Q.
Hypothesis s_sorted : StronglySorted Qle s.
Hypothesis s_nonempty : (1 <= length s)%nat.

Lemma interpolate_between (h : Q) :
  0 <= h -> h <= of_nat (length s - 1) ->
  nth (Z.to_nat (Qfloor h)) s 0 <= interpolate s h
  /\ interpolate s h
     <= nth (Nat.min (S (Z.to_nat (Qfloor h))) (length s - 1)) s 0.
Proof.
  intros H0 Hmax. unfold interpolate.
  pose proof (floor_max _ _ H0 Hmax) as Hlo.
  destruct (fraction_bounds h) as [Hf0 Hf1].
  set (lo := Z.to_nat (Qfloor h)) in *.
  set (f := h - inject_Z (Qfloor h)) in *.
  assert (Hij : nth lo s 0 <= nth (Nat.min (S lo) (length s - 1)) s 0).
  { apply sorted_nth_le; [exact s_sorted | lia]. }
  set (i := nth lo s 0) in *.
  set (j := nth (Nat.min (S lo) (length s - 1)) s 0) in *.
  split; nra.
Qed.

Lemma interpolate_monotone (h1 h2 : Q) :
  0 <= h1 -> h1 <= h2 -> h2 <= of_nat (length s - 1) ->
  interpolate s h1 <= interpolate s h2.
Proof.
  intros H0 H12 Hmax.
  assert (Hmax1 : h1 <= of_nat (length s - 1)) by lra.
  assert (H02 : 0 <= h2) by lra.
  pose proof (Qfloor_resp_le _ _ H12) as Hfl.
  pose proof (floor_nonneg _ H0) as Hn1.
  pose proof (floor_max _ _ H02 Hmax) as Hlo2.
  destruct (Z.eq_dec (Qfloor h1) (Qfloor h2)) as [E | NE].
  - unfold interpolate. rewrite E.
    pose proof (floor_max _ _ H02 Hmax) as Hlo.
    set (lo := Z.to_nat (Qfloor h2)) in *.
    assert (Hij : nth lo s 0 <= nth (Nat.min (S lo) (length s - 1)) s 0).
    { apply sorted_nth_le; [exact s_sorted | lia]. }
    set (i := nth lo s 0) in *.
    set (j := nth (Nat.min (S lo) (length s - 1)) s 0) in *.
    set (z := inject_Z (Qfloor h2)).
    nra.
  - destruct (interpolate_between h1 H0 Hmax1) as [_ Hup].
    destruct (interpolate_between h2 H02 Hmax) as [Hlow _].
    apply Qle_trans with (2 := Hlow). apply Qle_trans with (1 := Hup).
    apply sorted_nth_le; [exact s_sorted | lia].
Qed.

(** The interpolation is the one the specification describes. *)
Lemma interpolate_linear_quantile (p : Q) :
  0 <= p -> p <= 1 ->
  interpolate s (of_nat (length s - 1) * p) == linear_quantile s p.
Proof.
  intros Hp0 Hp1. unfold linear_quantile, interpolate.
  set (h := of_nat (length s - 1) * p).
  assert (Hn : 0 <= of_nat (length s - 1)).
  { change 0 with (of_nat 0). apply of_nat_le. lia. }
  assert (H0 : 0 <= h) by (unfold h; nra).
  assert (Hmax : h <= of_nat (length s - 1)) by (unfold h; nra).
  pose proof (floor_nonneg _ H0) as Hfl.
  pose proof (floor_max _ _ H0 Hmax) as Hlo.
  destruct (Qeq_bool h (inject_Z (Qfloor h))) eqn:E.
  - apply Qeq_bool_iff in E.
    assert (Hf : h - inject_Z (Qfloor h) == 0) by lra.
    rewrite Hf. ring.
  - apply Qeq_bool_neq in E.
    rewrite (Qceiling_floor h E).
    assert (Hlt : (Z.to_nat (Qfloor h) < length s - 1)%nat).
    { assert (Hs : inject_Z (Qfloor h) < of_nat (length s - 1)).
      { pose proof (Qfloor_le h) as Fl.
        apply Qle_lt_trans with h; [exact Fl |].
        apply Qle_lteq in Hmax. destruct Hmax as [Hm | Hm]; [exact Hm |].
        exfalso. apply E. rewrite Hm. unfold of_nat.
        rewrite Qfloor_Z. reflexivity. }
      unfold of_nat in Hs. rewrite <- Zlt_Qlt in Hs. lia. }
    replace (Z.to_nat (Qfloor h + 1)) with (S (Z.to_nat (Qfloor h))) by lia.
    rewrite Nat.min_l by lia. ring.
Qed.
End Interpolate.

Lemma quantile_nonempty (x : Q) (l : list Q) (q : Q) :
  0 <= q -> q <= 1 ->
  quantile (x :: l) q = ret (Some (quantile_value (x :: l) q)).
Proof.
  intros H0 H1. unfold quantile.
  apply Qle_bool_iff in H0, H1. rewrite H0, H1. reflexivity.
Qed.

Lemma quantile_value_spec (values : list Q) (p : Q) :
  values <> [] -> 0 <= p -> p <= 1 ->
  quantile_value values p == linear_quantile (sort_values values) p.
Proof.
  intros Hne H0 H1. unfold quantile_value.
  apply interpolate_linear_quantile; try assumption.
  rewrite sort_values_length. destruct values; [congruence | simpl; lia].
Qed.

(** Quantiles do not decrease with the probability. *)
Lemma quantile_value_monotone (values : list Q) (p q : Q) :
  values <> [] -> 0 <= p -> p <= q -> q <= 1 ->
  quantile_value values p <= quantile_value values q.
Proof.
  intros Hne H0 Hpq H1. unfold quantile_value.
  assert (Hn : 0 <= of_nat (length (sort_values values) - 1)).
  { change 0 with (of_nat 0). apply of_nat_le. lia. }
  apply interpolate_monotone.
  - apply sort_values_sorted.
  - rewrite sort_values_length. destruct values; [congruence | simpl; lia].
  - nra.
  - nra.
  - nra.
Qed.

Lemma half_floor_even (k : nat) : Qfloor (of_nat (2 * k) * 0.50) = Z.of_nat k.
Proof.
  apply Qfloor_unique.
  - unfold of_nat. rewrite Nat2Z.inj_mul, inject_Z_mult.
    change (inject_Z (Z.of_nat 2)) with 2. lra.
  - unfold of_nat. rewrite Nat2Z.inj_mul, inject_Z_mult, inject_Z_plus.
    change (inject_Z (Z.of_nat 2)) with 2. change (inject_Z 1) with 1. lra.
Qed.

Lemma half_floor_odd (k : nat) :
  Qfloor (of_nat (2 * k + 1) * 0.50) = Z.of_nat k.
Proof.
  apply Qfloor_unique.
  - unfold of_nat. rewrite Nat2Z.inj_add, Nat2Z.inj_mul, inject_Z_plus, inject_Z_mult.
    change (inject_Z (Z.of_nat 2)) with 2.
    change (inject_Z (Z.of_nat 1)) with 1. lra.
  - unfold of_nat.
    rewrite Nat2Z.inj_add, Nat2Z.inj_mul, !inject_Z_plus, inject_Z_mult.
    change (inject_Z (Z.of_nat 2)) with 2.
    change (inject_Z (Z.of_nat 1)) with 1. change (inject_Z 1) with 1. lra.
Qed.

(** The 0.50 quantile is the median. *)
Lemma quantile_value_median (values : list Q) :
  values <> [] -> quantile_value values 0.50 == median values.
Proof.
  intros Hne. unfold quantile_value, median, interpolate.
  assert (Hlen : (1 <= length (sort_values values))%nat).
  { rewrite sort_values_length. destruct values; [congruence | simpl; lia]. }
  set (s := sort_values values) in *.
  destruct (Nat.even (length s)) eqn:Ev.
  - apply Nat.even_spec in Ev. destruct Ev as [k Hk].
    assert (Hk1 : (length s - 1 = 2 * (k - 1) + 1)%nat) by lia.
    rewrite !Hk1, !half_floor_odd, Nat2Z.id.
    replace (length s / 2)%nat with k.
    2:{ rewrite Hk, Nat.mul_comm, Nat.div_mul; lia. }
    rewrite Nat.min_l by lia. replace (S (k - 1)) with k by lia.
    unfold of_nat.
    rewrite Nat2Z.inj_add, Nat2Z.inj_mul, inject_Z_plus, inject_Z_mult.
    change (inject_Z (Z.of_nat 2)) with 2.
    change (inject_Z (Z.of_nat 1)) with 1.
    field.
  - assert (Od : Nat.odd (length s) = true).
    { rewrite <- Nat.negb_even, Ev. reflexivity. }
    apply Nat.odd_spec in Od. destruct Od as [k Hk].
    assert (Hk1 : (length s - 1 = 2 * k)%nat) by lia.
    rewrite !Hk1, !half_floor_even, Nat2Z.id.
    replace (length s / 2)%nat with k.
    2:{ rewrite Hk, Nat.add_comm, Nat.mul_comm, Nat.div_add; simpl; lia. }
    unfold of_nat. rewrite Nat2Z.inj_mul, inject_Z_mult.
    change (inject_Z (Z.of_nat 2)) with 2.
    field.
Qed.

(** ** The PBR branch *)

Lemma quantile_bands_lines (smoothed : list num) (col : list Q) :
  lines_follow smoothed (quantile_bands smoothed col).
Proof.
  unfold lines_follow, quantile_bands. apply Forall_forall. intros x Hx.
  apply in_map_iff in Hx. destruct Hx as ([[q c] l] & <- & _). simpl.
  apply series_mul_pointwise.
Qed.

Lemma quantile_of_nonempty (values : list Q) (q : Q) :
  values <> [] -> 0 <= q -> q <= 1 ->
  quantile values q = ret (Some (quantile_value values q)).
Proof.
  destruct values as [| x l]; [congruence |]. intros _.
  apply quantile_nonempty.
Qed.

Lemma calculate_band_line_PBR (df : DataFrame) (ticker : string) :
  df <> [] ->
  calculate_band_line df "PBR" ticker
  = ret (quantile_bands (rolling_mean 120 1 (map BPS df)) (map PBR df)).
Proof.
  destruct df as [| r df]; [congruence |]. intros _. reflexivity.
Qed.

(** C3. On a non-empty prepared series the PBR branch yields exactly five
    bands, labelled 10%, 25%, 50%, 75%, 90%, whose multiples are the
    linear-interpolation quantiles of the whole PBR column at 0.10, 0.25,
    0.50, 0.75, 0.90, taken on the column in ascending order; the 0.50
    multiple is the median of the column (3 for the values 1, 2, 3, 4, 5);
    and every band line is the smoothed BPS series times the band's
    multiple. *)
Theorem pbr_bands_quantiles (df : DataFrame) (ticker : string) :
  df <> [] ->
  let pbr := map PBR df in
  exists smoothed bands,
    smoothed_base df "PBR" = ret smoothed
    /\ calculate_band_line df "PBR" ticker = ret bands
    /\ labels_of bands = ["10%"; "25%"; "50%"; "75%"; "90%"]
    /\ Permutation (sort_values pbr) pbr
    /\ StronglySorted Qle (sort_values pbr)
    /\ Forall2 (fun m p => exists v, m = Some v
                                    /\ quantile pbr p = ret (Some v)
                                    /\ v == linear_quantile (sort_values pbr) p)
               (multiples_of bands) [0.10; 0.25; 0.50; 0.75; 0.90]
    /\ (exists v, nth 2 (multiples_of bands) NaN = Some v
                  /\ v == median pbr
                  /\ (pbr = [1; 2; 3; 4; 5] -> v == 3))
    /\ (exists v, quantile [1; 2; 3; 4; 5] 0.50 = ret (Some v)
                  /\ v == median [1; 2; 3; 4; 5] /\ v == 3)
    /\ lines_follow smoothed bands.
Proof.
  intros Hne pbr.
  assert (Hpbr : pbr <> []).
  { unfold pbr. destruct df; [congruence | discriminate]. }
  exists (rolling_mean 120 1 (map BPS df)),
         (quantile_bands (rolling_mean 120 1 (map BPS df)) pbr).
  split; [reflexivity |].
  split; [apply calculate_band_line_PBR; exact Hne |].
  split; [reflexivity |].
  split; [apply sort_values_perm |].
  split; [apply sort_values_sorted |].
  split.
  { cbn [quantile_bands BAND_QUANTILE multiples_of map snd multiple].
    repeat constructor; eexists; (split; [reflexivity |]);
      (split; [apply quantile_of_nonempty | apply quantile_value_spec]);
      (exact Hpbr || lra). }
  split.
  { eexists. split; [reflexivity |].
    split; [apply quantile_value_median; exact Hpbr |].
    intros ->. vm_compute. reflexivity. }
  split.
  { eexists. split; [reflexivity |]. split; vm_compute; reflexivity. }
  apply quantile_bands_lines.
Qed.

(** C10. On a non-empty prepared series the five PBR multiples do not
    decrease along the configured probabilities 0.10, 0.25, 0.50, 0.75,
    0.90, so sorting the bands by multiple leaves them in the configured
    order. *)
Theorem pbr_multiples_nondecreasing (df : DataFrame) (ticker : string) :
  df <> [] ->
  exists bands m10 m25 m50 m75 m90,
    calculate_band_line df "PBR" ticker = ret bands
    /\ labels_of bands = ["10%"; "25%"; "50%"; "75%"; "90%"]
    /\ multiples_of bands = [Some m10; Some m25; Some m50; Some m75; Some m90]
    /\ m10 <= m25 /\ m25 <= m50 /\ m50 <= m75 /\ m75 <= m90
    /\ sorted_by band_key (items bands) = items bands.
Proof.
  intros Hne.
  assert (Hpbr : map PBR df <> []).
  { destruct df; [congruence | discriminate]. }
  pose proof (quantile_value_monotone (map PBR df)) as Hmono.
  eexists. do 5 eexists.
  split; [apply calculate_band_line_PBR; exact Hne |].
  split; [reflexivity |].
  split; [reflexivity |].
  assert (H1 : quantile_value (map PBR df) 0.10 <= quantile_value (map PBR df) 0.25)
    by (apply Hmono; [exact Hpbr | lra ..]).
  assert (H2 : quantile_value (map PBR df) 0.25 <= quantile_value (map PBR df) 0.50)
    by (apply Hmono; [exact Hpbr | lra ..]).
  assert (H3 : quantile_value (map PBR df) 0.50 <= quantile_value (map PBR df) 0.75)
    by (apply Hmono; [exact Hpbr | lra ..]).
  assert (H4 : quantile_value (map PBR df) 0.75 <= quantile_value (map PBR df) 0.90)
    by (apply Hmono; [exact Hpbr | lra ..]).
  repeat (split; [assumption |]).
  apply sorted_by_ascending_id. unfold items, quantile_bands, BAND_QUANTILE.
  cbn [map].
  apply Sorted_StronglySorted.
  - intros x y z. apply num_le_trans.
  - repeat constructor; assumption.
Qed.

(** ** Data preparation *)

Lemma merge_In (left : list PriceRow) (right : list FundRow) (r : Row) :
  In r (merge left right) <->
  exists p f, In p left /\ In f right /\ f_date f = p_date p /\ r = join p f.
Proof.
  unfold merge. rewrite in_flat_map. split.
  - intros (p & Hp & Hr). apply in_map_iff in Hr.
    destruct Hr as (f & <- & Hf). apply filter_In in Hf.
    destruct Hf as [Hf Hd]. apply Z.eqb_eq in Hd.
    exists p, f. repeat split; assumption.
  - intros (p & f & Hp & Hf & Hd & ->). exists p. split; [exact Hp |].
    apply in_map, filter_In. split; [exact Hf |]. apply Z.eqb_eq. exact Hd.
Qed.

Lemma merge_nil_r (left : list PriceRow) : merge left [] = [].
Proof. induction left as [| p l IH]; [reflexivity | exact IH]. Qed.

Lemma valid_row_spec (r : Row) :
  valid_row r = true <->
  0 < PER r /\ 0 < PBR r /\ ~ EPS r == 0 /\ ~ BPS r == 0.
Proof.
  unfold valid_row. rewrite !andb_true_iff, !negb_true_iff, !Qltb_lt.
  split.
  - intros [[[H1 H2] H3] H4]. repeat split; try assumption.
    + apply Qeq_bool_neq. exact H3.
    + apply Qeq_bool_neq. exact H4.
  - intros (H1 & H2 & H3 & H4). repeat split; try assumption.
    + destruct (Qeq_bool (EPS r) 0) eqn:E; [| reflexivity].
      apply Qeq_bool_iff in E. contradiction.
    + destruct (Qeq_bool (BPS r) 0) eqn:E; [| reflexivity].
      apply Qeq_bool_iff in E. contradiction.
Qed.

(** Whatever the provider returns, [fetch_stock_data] does not raise, and
    its result is the filtered inner join. *)
Lemma fetch_stock_data_outcome (src : Adapter) (ticker start_date end_date : string) :
  outcome (fetch_stock_data src ticker start_date end_date)
  = inr (filter valid_row
           (merge (get_market_ohlcv_by_date src start_date end_date ticker)
                  (get_market_fundamental_by_date src start_date end_date ticker))).
Proof.
  unfold fetch_stock_data.
  destruct (get_market_ohlcv_by_date src start_date end_date ticker) as [| p ps];
    [reflexivity |].
  destruct (get_market_fundamental_by_date src start_date end_date ticker)
    as [| f fs]; [| reflexivity].
  cbn [empty]. rewrite merge_nil_r. reflexivity.
Qed.

Lemma prepared_eq (src : Adapter) (ticker start_date end_date : string) :
  prepared src ticker start_date end_date
  = filter valid_row
      (merge (get_market_ohlcv_by_date src start_date end_date ticker)
             (get_market_fundamental_by_date src start_date end_date ticker)).
Proof. unfold prepared. rewrite fetch_stock_data_outcome. reflexivity. Qed.

(** C4. [fetch_stock_data] returns a frame, every row of which has PER > 0,
    PBR > 0, EPS <> 0 and BPS <> 0; its rows are exactly the rows of the
    inner join that satisfy this, each the unchanged combination of a price
    row and a fundamental row of the same date. *)
Theorem prepared_rows_valid (src : Adapter) (ticker start_date end_date : string) :
  let price := get_market_ohlcv_by_date src start_date end_date ticker in
  let fund := get_market_fundamental_by_date src start_date end_date ticker in
  exists df,
    outcome (fetch_stock_data src ticker start_date end_date) = inr df
    /\ (forall r, In r df ->
          0 < PER r /\ 0 < PBR r /\ ~ EPS r == 0 /\ ~ BPS r == 0)
    /\ (forall r, In r df <->
          In r (merge price fund)
          /\ 0 < PER r /\ 0 < PBR r /\ ~ EPS r == 0 /\ ~ BPS r == 0)
    /\ (forall r, In r df ->
          exists p f, In p price /\ In f fund
                      /\ f_date f = p_date p /\ r = join p f).
Proof.
  intros price fund. eexists.
  split; [apply fetch_stock_data_outcome |].
  fold price fund.
  split; [| split].
  - intros r Hr. apply filter_In in Hr. apply valid_row_spec, Hr.
  - intros r. rewrite filter_In, valid_row_spec. reflexivity.
  - intros r Hr. apply filter_In in Hr. apply merge_In, Hr.
Qed.

(** ** Dates of the prepared series *)

Lemma merge_dates (left : list PriceRow) (right : list FundRow) (d : Z) :
  In d (index (merge left right)) <->
  In d (map p_date left) /\ In d (map f_date right).
Proof.
  unfold index. rewrite !in_map_iff. split.
  - intros (r & <- & Hr). apply merge_In in Hr.
    destruct Hr as (p & f & Hp & Hf & Hd & ->). simpl. split.
    + exists p. split; [reflexivity | exact Hp].
    + exists f. split; [exact Hd | exact Hf].
  - intros [(p & <- & Hp) (f & Hd & Hf)]. exists (join p f).
    split; [reflexivity |]. apply merge_In. exists p, f.
    repeat split; assumption.
Qed.

Lemma dates_of_prepared (src : Adapter) (ticker start_date end_date : string)
      (d : Z) :
  In d (index (prepared src ticker start_date end_date)) <->
  exists p f,
    In p (get_market_ohlcv_by_date src start_date end_date ticker)
    /\ In f (get_market_fundamental_by_date src start_date end_date ticker)
    /\ p_date p = d /\ f_date f = d /\ valid_row (join p f) = true.
Proof.
  rewrite prepared_eq. unfold index. rewrite in_map_iff. split.
  - intros (r & <- & Hr). apply filter_In in Hr. destruct Hr as [Hr Hv].
    apply merge_In in Hr. destruct Hr as (p & f & Hp & Hf & Hd & ->).
    exists p, f. repeat split; assumption.
  - intros (p & f & Hp & Hf & <- & Hd & Hv). exists (join p f).
    split; [reflexivity |]. apply filter_In. split; [| exact Hv].
    apply merge_In. exists p, f. repeat split; assumption.
Qed.

Lemma blank_day_counterexample :
  let price := get_market_ohlcv_by_date blank_day_src "20240101" "20240131" "005930" in
  let fund := get_market_fundamental_by_date blank_day_src "20240101" "20240131" "005930" in
  fetch_stock_data blank_day_src "005930" "20240101" "20240131" = ret []
  /\ ~ (In 20240102%Z (index (prepared blank_day_src "005930" "20240101" "20240131"))
        <-> In 20240102%Z (map p_date price) /\ In 20240102%Z (map f_date fund)).
Proof.
  split; [reflexivity |].
  intros [_ H]. apply H. split; left; reflexivity.
Qed.

(** ** Skipping a ticker *)

Lemma fetch_stock_data_run (src : Adapter) (ticker start_date end_date : string) :
  fetch_stock_data src ticker start_date end_date
  = (output (fetch_stock_data src ticker start_date end_date),
     inr (prepared src ticker start_date end_date)).
Proof.
  unfold prepared.
  pose proof (fetch_stock_data_outcome src ticker start_date end_date) as H.
  destruct (fetch_stock_data src ticker start_date end_date) as [out [e | df]];
    simpl in *; [discriminate | reflexivity].
Qed.

Lemma no_data_prepared (src : Adapter) (ticker start_date end_date : string) :
  no_data src ticker start_date end_date ->
  prepared src ticker start_date end_date = [].
Proof.
  intros [H | [H | H]]; [| | exact H]; rewrite prepared_eq, H.
  - reflexivity.
  - rewrite merge_nil_r. reflexivity.
Qed.

Lemma saved_files_app (a b : list event) :
  saved_files (a ++ b) = saved_files a ++ saved_files b.
Proof. apply flat_map_app. Qed.

Lemma fetch_stock_data_no_files (src : Adapter) (ticker start_date end_date : string) :
  saved_files (output (fetch_stock_data src ticker start_date end_date)) = [].
Proof.
  unfold fetch_stock_data.
  destruct (get_market_ohlcv_by_date src start_date end_date ticker);
    [reflexivity |].
  destruct (get_market_fundamental_by_date src start_date end_date ticker);
    reflexivity.
Qed.

Lemma process_ticker_skip (src : Adapter) (start_date end_date ticker : string)
      (info : StockInfo) :
  prepared src ticker start_date end_date = [] ->
  process_ticker src start_date end_date (ticker, info)
  = ([Print MsgRule; Print (MsgProcessing (name info) ticker); Print MsgRule]
       ++ output (fetch_stock_data src ticker start_date end_date)
       ++ [Print (MsgSkipped (name info))],
     inr tt).
Proof.
  intros H. unfold process_ticker.
  rewrite fetch_stock_data_run, H.
  destruct (fetch_stock_data src ticker start_date end_date) as [out r].
  reflexivity.
Qed.

Lemma for_each_cons_ok {A} (body : A -> M unit) (x : A) (rest : list A) :
  outcome (body x) = inr tt ->
  for_each body (x :: rest)
  = (output (body x) ++ output (for_each body rest),
     outcome (for_each body rest)).
Proof.
  intros H. cbn [for_each].
  apply (bind_output_ok (body x) (fun _ => for_each body rest) tt H).
Qed.

(** ** Rendering *)

Lemma plotted_bands_app (a b : list draw) :
  plotted_bands (a ++ b) = plotted_bands a ++ plotted_bands b.
Proof. apply flat_map_app. Qed.

Lemma filled_regions_app (a b : list draw) :
  filled_regions (a ++ b) = filled_regions a ++ filled_regions b.
Proof. apply flat_map_app. Qed.

Section Figure.
Variable metric : string.

Lemma plotted_bands_fills (l : list ((string * Band) * (string * Band))) :
  plotted_bands (map fill_between l) = [].
Proof.
  induction l as [| [[l1 b1] [l2 b2]] l IH]; [reflexivity | exact IH].
Qed.

Lemma plotted_bands_plots (l : list (string * Band)) :
  plotted_bands (map (plot_line metric) l)
  = map (fun x => (fst x, multiple (snd x), line (snd x))) l.
Proof.
  induction l as [| [label b] l IH]; [reflexivity |].
  simpl. f_equal. exact IH.
Qed.

Lemma filled_regions_fills (l : list ((string * Band) * (string * Band))) :
  filled_regions (map fill_between l)
  = map (fun x => (line (snd (fst x)), line (snd (snd x)))) l.
Proof.
  induction l as [| [[l1 b1] [l2 b2]] l IH]; [reflexivity |].
  simpl. f_equal. exact IH.
Qed.

Lemma filled_regions_plots (l : list (string * Band)) :
  filled_regions (map (plot_line metric) l) = [].
Proof.
  induction l as [| [label b] l IH]; [reflexivity | exact IH].
Qed.

(** What the drawing steps do with any band set, on a frame with at least
    one row. *)
Lemma draw_band_chart_run (df : DataFrame) (stock_name output_filename : string)
      (band_data : dict Band) :
  df <> [] ->
  metric = "PER" \/ metric = "PBR" ->
  exists figure,
    draw_band_chart df stock_name metric output_filename band_data
    = ([SaveFig output_filename figure;
        Print (MsgChartDone output_filename stock_name metric)], inr tt)
    /\ plotted_bands figure
       = map (fun x => (fst x, multiple (snd x), line (snd x)))
             (sorted_by band_key (items band_data))
    /\ filled_regions figure
       = map (fun x => (line (snd (fst x)), line (snd (snd x))))
             (adjacent (sorted_by band_key (items band_data))).
Proof.
  intros Hdf Hm.
  destruct df as [| r df]; [congruence |].
  unfold draw_band_chart.
  assert (Hcol : exists col, column (r :: df) metric = ret col).
  { destruct Hm as [-> | ->]; eexists; reflexivity. }
  destruct Hcol as [[| c col] Hcol].
  { destruct Hm as [-> | ->]; discriminate. }
  rewrite Hcol. eexists. split; [reflexivity |].
  rewrite !plotted_bands_app, !filled_regions_app,
    plotted_bands_fills, plotted_bands_plots,
    filled_regions_fills, filled_regions_plots, !app_nil_r.
  split; reflexivity.
Qed.

(** What [plot_band_chart] does once the bands are computed, on a frame
    with at least one row and a ticker of [STOCK_INFO]. *)
Lemma plot_band_chart_run (df : DataFrame) (ticker output_filename : string)
      (bands : dict Band) :
  df <> [] ->
  ticker = "005930" \/ ticker = "000660" ->
  metric = "PER" \/ metric = "PBR" ->
  calculate_band_line df metric ticker = ret bands ->
  exists stock_name figure,
    plot_band_chart df ticker metric output_filename
       = ([SaveFig output_filename figure;
           Print (MsgChartDone output_filename stock_name metric)], inr tt)
    /\ plotted_bands figure
       = map (fun x => (fst x, multiple (snd x), line (snd x)))
             (sorted_by band_key (items bands))
    /\ filled_regions figure
       = map (fun x => (line (snd (fst x)), line (snd (snd x))))
             (adjacent (sorted_by band_key (items bands))).
Proof.
  intros Hdf Ht Hm Hcalc.
  destruct df as [| r df]; [congruence |].
  unfold plot_band_chart, draw_band_chart.
  assert (Hcol : exists col, column (r :: df) metric = ret col).
  { destruct Hm as [-> | ->]; eexists; reflexivity. }
  destruct Hcol as [[| c col] Hcol].
  { destruct Hm as [-> | ->]; discriminate. }
  destruct Ht as [-> | ->]; rewrite Hcalc, Hcol;
    do 2 eexists;
    (split; [reflexivity |]);
    rewrite !plotted_bands_app, !filled_regions_app,
      plotted_bands_fills, plotted_bands_plots,
      filled_regions_fills, filled_regions_plots, !app_nil_r;
    split; reflexivity.
Qed.
End Figure.

Lemma ret_inj {A} (x y : A) : ret x = ret y -> x = y.
Proof. intros H. injection H as H. exact H. Qed.

Lemma calculate_band_line_finite (df : DataFrame) (metric ticker : string)
      (bands : dict Band) :
  df <> [] ->
  metric = "PER" \/ metric = "PBR" ->
  calculate_band_line df metric ticker = ret bands ->
  Forall (fun x => is_finite (band_key x)) (items bands).
Proof.
  intros Hdf [-> | ->] Hcalc.
  - rewrite calculate_band_line_PER in Hcalc. apply ret_inj in Hcalc.
    subst bands. unfold items, fixed_bands. apply Forall_forall.
    intros x Hx. apply in_map_iff in Hx.
    destruct Hx as ([[val c] l] & <- & _). eexists. reflexivity.
  - rewrite calculate_band_line_PBR in Hcalc by exact Hdf.
    apply ret_inj in Hcalc. subst bands. unfold items, quantile_bands.
    apply Forall_forall. intros x Hx. apply in_map_iff in Hx.
    destruct Hx as ([[q c] l] & <- & _). eexists. reflexivity.
Qed.

(** C7. Whatever band set the drawing steps of [plot_band_chart] are
    handed, in any order and with any repeated multiples, as long as the
    multiples are numbers: they sort it by multiple first, the sorted list
    being a rearrangement of the band set that ascends by multiple and
    keeps bands of equal multiple in their order; the dashed lines are
    drawn in that order, so the drawn multiples ascend, and the regions are
    filled between its neighbours. [plot_band_chart] runs exactly these
    steps on the band set [calculate_band_line] returns. *)
Theorem bands_sorted_before_rendering
        (df : DataFrame) (stock_name metric output_filename : string)
        (band_data : dict Band) :
  df <> [] ->
  metric = "PER" \/ metric = "PBR" ->
  Forall (fun x => is_finite (band_key x)) (items band_data) ->
  let sorted_band := sorted_by band_key (items band_data) in
  Permutation sorted_band (items band_data)
  /\ StronglySorted (fun x y => num_le (band_key x) (band_key y)) sorted_band
  /\ (forall k, filter (fun x => num_eqb (band_key x) k) sorted_band
                = filter (fun x => num_eqb (band_key x) k) (items band_data))
  /\ (exists figure,
         draw_band_chart df stock_name metric output_filename band_data
         = ([SaveFig output_filename figure;
             Print (MsgChartDone output_filename stock_name metric)], inr tt)
         /\ plotted_bands figure
            = map (fun x => (fst x, multiple (snd x), line (snd x))) sorted_band
         /\ StronglySorted num_le
              (map (fun b => snd (fst b)) (plotted_bands figure))
         /\ filled_regions figure
            = map (fun x => (line (snd (fst x)), line (snd (snd x))))
                  (adjacent sorted_band))
  /\ (forall ticker bands,
         ticker = "005930" \/ ticker = "000660" ->
         calculate_band_line df metric ticker = ret bands ->
         exists info,
           In (ticker, info) STOCK_INFO
           /\ plot_band_chart df ticker metric output_filename
              = draw_band_chart df (name info) metric output_filename bands).
Proof.
  intros Hdf Hm Hfin sorted_band.
  pose proof (sorted_by_ascending band_key (items band_data) Hfin) as Hasc.
  split; [apply sorted_by_perm |].
  split; [exact Hasc |].
  split; [intros k; apply sorted_by_stable |].
  split.
  - destruct (draw_band_chart_run metric df stock_name output_filename band_data
                Hdf Hm) as (figure & Hrun & Hp & Hf).
    exists figure. split; [exact Hrun |]. split; [exact Hp |].
    split; [| exact Hf].
    rewrite Hp, map_map. cbn [fst snd]. fold sorted_band.
    clear - Hasc. fold sorted_band in Hasc.
    induction Hasc as [| x l _ IH Hx]; cbn [map]; constructor; [exact IH |].
    apply Forall_map. exact Hx.
  - intros ticker bands Ht Hcalc. unfold plot_band_chart. rewrite Hcalc.
    destruct Ht as [-> | ->].
    + exists (snd SAMSUNG). split; [left; reflexivity |].
      cbn [STOCK_INFO SAMSUNG HYNIX dict_get String.eqb Ascii.eqb Bool.eqb snd].
      rewrite !bind_ret. reflexivity.
    + exists (snd HYNIX). split; [right; left; reflexivity |].
      cbn [STOCK_INFO SAMSUNG HYNIX dict_get String.eqb Ascii.eqb Bool.eqb snd].
      rewrite !bind_ret. reflexivity.
Qed.

(** ** The main loop *)

Lemma process_ticker_charts (src : Adapter) (start_date end_date : string)
      (entry : string * StockInfo) :
  entry = SAMSUNG \/ entry = HYNIX ->
  prepared src (fst entry) start_date end_date <> [] ->
  exists out,
    process_ticker src start_date end_date entry = (out, inr tt)
    /\ saved_files out
       = [ ((if String.eqb (fst entry) "005930" then "samsung" else "hynix")
              ++ "_per_band.png")%string;
           ((if String.eqb (fst entry) "005930" then "samsung" else "hynix")
              ++ "_pbr_band.png")%string ].
Proof.
  intros He Hdf.
  assert (Ht : fst entry = "005930" \/ fst entry = "000660").
  { destruct He as [-> | ->]; [left | right]; reflexivity. }
  destruct entry as [ticker info]. cbn [fst] in *.
  set (prefix := if String.eqb ticker "005930" then "samsung" else "hynix").
  pose proof (calculate_band_line_PER
                (prepared src ticker start_date end_date) ticker) as Hper.
  destruct (plot_band_chart_run "PER" _ ticker (prefix ++ "_per_band.png")%string
              _ Hdf Ht (or_introl eq_refl) Hper)
    as (n1 & fig1 & Hrun1 & _).
  pose proof (calculate_band_line_PBR _ ticker Hdf) as Hpbr.
  destruct (plot_band_chart_run "PBR" _ ticker (prefix ++ "_pbr_band.png")%string
              _ Hdf Ht (or_intror eq_refl) Hpbr)
    as (n2 & fig2 & Hrun2 & _).
  unfold process_ticker. fold prefix.
  rewrite fetch_stock_data_run.
  pose proof (fetch_stock_data_no_files src ticker start_date end_date) as Hnf.
  destruct (prepared src ticker start_date end_date) as [| r df] eqn:E;
    [congruence |].
  set (fetched := output (fetch_stock_data src ticker start_date end_date)) in *.
  cbn [bind print emit ret empty first_item last_item index map].
  rewrite Hrun1. cbn [bind]. rewrite Hrun2. cbn [bind].
  eexists. split; [reflexivity |].
  rewrite !saved_files_app, Hnf. reflexivity.
Qed.

Lemma process_ticker_no_data (src : Adapter) (start_date end_date ticker : string)
      (info : StockInfo) :
  prepared src ticker start_date end_date = [] ->
  let run := process_ticker src start_date end_date (ticker, info) in
  outcome run = inr tt
  /\ saved_files (output run) = []
  /\ In (Print (MsgSkipped (name info))) (output run).
Proof.
  intros H run. unfold run. rewrite (process_ticker_skip _ _ _ _ _ H).
  cbn [outcome output fst snd]. split; [reflexivity |]. split.
  - rewrite !saved_files_app, fetch_stock_data_no_files. reflexivity.
  - apply in_or_app. right. apply in_or_app. right. left. reflexivity.
Qed.

Lemma process_ticker_ok (src : Adapter) (start_date end_date : string)
      (entry : string * StockInfo) :
  entry = SAMSUNG \/ entry = HYNIX ->
  outcome (process_ticker src start_date end_date entry) = inr tt.
Proof.
  intros He.
  destruct (prepared src (fst entry) start_date end_date) as [| r df] eqn:E.
  - destruct entry as [ticker info].
    apply (process_ticker_no_data src start_date end_date ticker info E).
  - destruct (process_ticker_charts src start_date end_date entry He)
      as (out & Hrun & _); [rewrite E; discriminate |].
    rewrite Hrun. reflexivity.
Qed.

Lemma main_run (src : Adapter) (start_date end_date : string) :
  main src start_date end_date
  = (Print (MsgPeriod start_date end_date)
       :: output (process_ticker src start_date end_date SAMSUNG)
       ++ output (process_ticker src start_date end_date HYNIX)
       ++ [Print MsgRule; Print MsgAllDone],
     inr tt).
Proof.
  pose proof (process_ticker_ok src start_date end_date SAMSUNG
                (or_introl eq_refl)) as H1.
  pose proof (process_ticker_ok src start_date end_date HYNIX
                (or_intror eq_refl)) as H2.
  unfold main, items, STOCK_INFO. cbn [for_each].
  destruct (process_ticker src start_date end_date SAMSUNG) as [o1 [e1 | []]];
    [discriminate |].
  destruct (process_ticker src start_date end_date HYNIX) as [o2 [e2 | []]];
    [discriminate |].
  cbn. rewrite app_nil_r, <- app_assoc. reflexivity.
Qed.

(** C5, as the code has it. The inner join holds exactly the dates found in
    both input series; a date is in the prepared series exactly when some
    price row and some fundamental row carry it and their combination
    passes the validity filter, so every date of the prepared series is in
    both inputs. When the inputs share no date the prepared series is
    empty, and the ticker is skipped with a message, without an exception
    and without a chart. *)
Theorem prepared_dates (src : Adapter) (ticker start_date end_date : string)
        (d : Z) :
  let price := get_market_ohlcv_by_date src start_date end_date ticker in
  let fund := get_market_fundamental_by_date src start_date end_date ticker in
  let df := prepared src ticker start_date end_date in
  (In d (index (merge price fund)) <->
   In d (map p_date price) /\ In d (map f_date fund))
  /\ (In d (index df) <->
      exists p f, In p price /\ In f fund /\ p_date p = d /\ f_date f = d
                  /\ valid_row (join p f) = true)
  /\ (In d (index df) -> In d (map p_date price) /\ In d (map f_date fund))
  /\ ((forall d', ~ (In d' (map p_date price) /\ In d' (map f_date fund))) ->
      df = []
      /\ forall info,
          let run := process_ticker src start_date end_date (ticker, info) in
          outcome run = inr tt
          /\ saved_files (output run) = []
          /\ In (Print (MsgSkipped (name info))) (output run)).
Proof.
  intros price fund df.
  assert (Hsub : In d (index df) ->
                 In d (map p_date price) /\ In d (map f_date fund)).
  { intros H. apply dates_of_prepared in H.
    destruct H as (p & f & Hp & Hf & <- & Hd & _). split.
    - apply in_map. exact Hp.
    - rewrite <- Hd. apply in_map. exact Hf. }
  split; [apply merge_dates |].
  split; [apply dates_of_prepared |].
  split; [exact Hsub |].
  intros Hdis.
  assert (Hnil : df = []).
  { unfold df. rewrite prepared_eq. fold price fund.
    destruct (filter valid_row (merge price fund)) as [| r rs] eqn:E;
      [reflexivity |].
    exfalso. apply (Hdis (date r)). apply merge_dates.
    apply in_map. apply (proj1 (filter_In valid_row r (merge price fund))).
    rewrite E. left. reflexivity. }
  split; [exact Hnil |].
  intros info. apply process_ticker_no_data. exact Hnil.
Qed.

(** C6. A ticker whose price series is empty, whose fundamental series is
    empty, or whose prepared series is empty is skipped: processing it
    raises nothing, saves no figure and prints the skip message, and the
    loop goes on with the tickers that follow. [main] itself never raises;
    its output is that of the two tickers one after the other, each of
    which yields no chart when it has no data and its two charts
    otherwise. *)
Theorem no_data_skips_ticker (src : Adapter) (start_date end_date : string) :
  (forall ticker info rest,
      no_data src ticker start_date end_date ->
      let loop := for_each (process_ticker src start_date end_date) in
      let run := process_ticker src start_date end_date (ticker, info) in
      outcome run = inr tt
      /\ saved_files (output run) = []
      /\ In (Print (MsgSkipped (name info))) (output run)
      /\ loop ((ticker, info) :: rest)
         = (output run ++ output (loop rest), outcome (loop rest)))
  /\ (let samsung := output (process_ticker src start_date end_date SAMSUNG) in
      let hynix := output (process_ticker src start_date end_date HYNIX) in
      main src start_date end_date
      = (Print (MsgPeriod start_date end_date)
           :: samsung ++ hynix ++ [Print MsgRule; Print MsgAllDone],
         inr tt)
      /\ saved_files (output (main src start_date end_date))
         = saved_files samsung ++ saved_files hynix
      /\ (no_data src "005930" start_date end_date -> saved_files samsung = [])
      /\ (no_data src "000660" start_date end_date -> saved_files hynix = [])
      /\ (prepared src "005930" start_date end_date <> [] ->
          saved_files samsung = ["samsung_per_band.png"; "samsung_pbr_band.png"])
      /\ (prepared src "000660" start_date end_date <> [] ->
          saved_files hynix = ["hynix_per_band.png"; "hynix_pbr_band.png"])).
Proof.
  split.
  - intros ticker info rest Hno loop run.
    apply no_data_prepared in Hno.
    destruct (process_ticker_no_data src start_date end_date ticker info Hno)
      as (Hok & Hfiles & Hmsg).
    repeat split; try assumption.
    apply for_each_cons_ok. exact Hok.
  - intros samsung hynix.
    split; [apply main_run |].
    split.
    { rewrite main_run. cbn [output fst]. fold samsung hynix.
      change (saved_files (Print (MsgPeriod start_date end_date)
                             :: samsung ++ hynix ++ [Print MsgRule; Print MsgAllDone]))
        with (saved_files (samsung ++ hynix ++ [Print MsgRule; Print MsgAllDone])).
      rewrite !saved_files_app. cbn. rewrite app_nil_r. reflexivity. }
    split; [| split; [| split]].
    + intros Hno. apply no_data_prepared in Hno.
      apply (process_ticker_no_data src start_date end_date "005930" _ Hno).
    + intros Hno. apply no_data_prepared in Hno.
      apply (process_ticker_no_data src start_date end_date "000660" _ Hno).
    + intros Hdf.
      destruct (process_ticker_charts src start_date end_date SAMSUNG
                  (or_introl eq_refl) Hdf) as (out & Hrun & Hfiles).
      unfold samsung. rewrite Hrun. exact Hfiles.
    + intros Hdf.
      destruct (process_ticker_charts src start_date end_date HYNIX
                  (or_intror eq_refl) Hdf) as (out & Hrun & Hfiles).
      unfold hynix. rewrite Hrun. exact Hfiles.
Qed.

(** ** The theorems at concrete inputs *)

Lemma pbr_bands_quantiles_witness :
  map PBR five_row_df = [1; 2; 3; 4; 5]
  /\ exists bands,
       calculate_band_line five_row_df "PBR" "005930" = ret bands
       /\ labels_of bands = ["10%"; "25%"; "50%"; "75%"; "90%"]
       /\ exists v, nth 2 (multiples_of bands) NaN = Some v /\ v == 3.
Proof.
  assert (Hcol : map PBR five_row_df = [1; 2; 3; 4; 5]) by reflexivity.
  split; [exact Hcol |].
  destruct (pbr_bands_quantiles five_row_df "005930" ltac:(discriminate))
    as (smoothed & bands & _ & Hcalc & Hlabels & _ & _ & _ & Hmedian & _).
  destruct Hmedian as (v & Hv & _ & Hthree).
  exists bands. split; [exact Hcalc |]. split; [exact Hlabels |].
  exists v. split; [exact Hv | exact (Hthree Hcol)].
Defined.

Lemma bands_sorted_before_rendering_witness :
  sorted_by band_key (items shuffled_bands)
  = [ ("low", {| line := [Some 10; Some 11]; multiple := Some 1;
                 color := "#FF6B6B" |});
      ("high", {| line := [Some 30; Some 33]; multiple := Some 3;
                  color := "#DDA0DD" |});
      ("twin", {| line := [Some 31; Some 34]; multiple := Some 3;
                  color := "#87CEEB" |}) ]
  /\ exists figure,
       draw_band_chart sample_df "삼성전자" "PER" "samsung_per_band.png"
                       shuffled_bands
       = ([SaveFig "samsung_per_band.png" figure;
           Print (MsgChartDone "samsung_per_band.png" "삼성전자" "PER")],
          inr tt)
       /\ plotted_bands figure
          = [ ("low", Some 1, [Some 10; Some 11]);
              ("high", Some 3, [Some 30; Some 33]);
              ("twin", Some 3, [Some 31; Some 34]) ]
       /\ filled_regions figure
          = [ ([Some 10; Some 11], [Some 30; Some 33]);
              ([Some 30; Some 33], [Some 31; Some 34]) ].
Proof.
  split; [reflexivity |].
  destruct (bands_sorted_before_rendering
              sample_df "삼성전자" "PER" "samsung_per_band.png" shuffled_bands)
    as (_ & _ & _ & (figure & Hrun & Hplots & _ & Hfills) & _).
  - discriminate.
  - left. reflexivity.
  - repeat constructor; eexists; reflexivity.
  - exists figure. split; [exact Hrun |]. split; [exact Hplots | exact Hfills].
Defined.

Lemma constant_eps_band_values_witness :
  length (repeat flat_row 130) = 130%nat
  /\ exists bands,
       calculate_band_line (repeat flat_row 130) "PER" "005930" = ret bands
       /\ multiples_of bands
          = [Some 8.0; Some 10.0; Some 12.0; Some 15.0; Some 20.0]
       /\ Forall2 num_eq (values_at 125 bands)
                         [Some 80; Some 100; Some 120; Some 150; Some 200].
Proof.
  split; [reflexivity |].
  apply (constant_eps_band_values (repeat flat_row 130) 125).
  - reflexivity.
  - intros r Hr. apply repeat_spec in Hr. rewrite Hr. reflexivity.
  - lia.
Defined.

Lemma pbr_multiples_nondecreasing_witness :
  exists bands m10 m25 m50 m75 m90,
    calculate_band_line sample_df "PBR" "000660" = ret bands
    /\ labels_of bands = ["10%"; "25%"; "50%"; "75%"; "90%"]
    /\ multiples_of bands = [Some m10; Some m25; Some m50; Some m75; Some m90]
    /\ m10 <= m25 /\ m25 <= m50 /\ m50 <= m75 /\ m75 <= m90
    /\ sorted_by band_key (items bands) = items bands.
Proof.
  apply (pbr_multiples_nondecreasing sample_df "000660"). discriminate.
Defined.

Lemma prepared_dates_witness :
  prepared disjoint_src "000660" "20240101" "20240131" = []
  /\ outcome (process_ticker disjoint_src "20240101" "20240131" HYNIX) = inr tt
  /\ saved_files
       (output (process_ticker disjoint_src "20240101" "20240131" HYNIX)) = [].
Proof.
  destruct (prepared_dates disjoint_src "000660" "20240101" "20240131" 20240102)
    as (_ & _ & _ & H).
  destruct H as [Hnil Hrun].
  - intros d' [[Hp | []] [Hf | []]]. rewrite <- Hp in Hf. discriminate.
  - split; [exact Hnil |].
    destruct (Hrun (snd HYNIX)) as (Hok & Hfiles & _).
    split; assumption.
Defined.

Lemma no_data_skips_ticker_witness :
  no_data hynix_only_src "005930" "20240101" "20240131"
  /\ outcome (process_ticker hynix_only_src "20240101" "20240131" SAMSUNG)
     = inr tt
  /\ saved_files
       (output (process_ticker hynix_only_src "20240101" "20240131" SAMSUNG))
     = []
  /\ saved_files (output (main hynix_only_src "20240101" "20240131"))
     = ["hynix_per_band.png"; "hynix_pbr_band.png"].
Proof.
  assert (Hno : no_data hynix_only_src "005930" "20240101" "20240131")
    by (left; reflexivity).
  destruct (no_data_skips_ticker hynix_only_src "20240101" "20240131")
    as [Hskip (_ & Hfiles & Hs & _ & _ & Hh)].
  destruct (Hskip "005930" (snd SAMSUNG) [HYNIX] Hno) as (Hok & Hnone & _).
  split; [exact Hno |]. split; [exact Hok |]. split; [exact Hnone |].
  rewrite Hfiles, (Hs Hno), Hh; [reflexivity | discriminate].
Defined.

(* ------------------------------------------------------------------ *)
(** * Further properties of the code *)

(** ** Errors of the chart and of the band calculator *)

(** X1. [plot_band_chart] looks the ticker up in [STOCK_INFO] before
    anything else: for a ticker that is not a key of the table it raises
    [KeyError] with that ticker, whatever the frame and the metric, and
    nothing is printed or saved. *)
Theorem plot_band_chart_unknown_ticker
        (df : DataFrame) (ticker metric output_filename : string) :
  ticker <> "005930" -> ticker <> "000660" ->
  plot_band_chart df ticker metric output_filename = raise (KeyError ticker).
Proof.
  intros H1 H2. unfold plot_band_chart, draw_band_chart, STOCK_INFO, SAMSUNG, HYNIX.
  cbn [dict_get].
  assert (E1 : String.eqb "005930" ticker = false).
  { apply String.eqb_neq. congruence. }
  assert (E2 : String.eqb "000660" ticker = false).
  { apply String.eqb_neq. congruence. }
  rewrite E1, E2. reflexivity.
Qed.

Lemma plot_band_chart_unknown_ticker_witness :
  plot_band_chart sample_df "035420" "PER" "naver_per_band.png"
  = raise (KeyError "035420").
Proof.
  apply plot_band_chart_unknown_ticker; discriminate.
Defined.

(** Computations that print and save nothing. *)
Section Silent.

Lemma silent_bind {A B} (m : M A) (f : A -> M B) :
  output m = [] -> (forall x, output (f x) = []) -> output (bind m f) = [].
Proof.
  destruct m as [out [e | x]]; cbn; intros -> Hf; [reflexivity |].
  specialize (Hf x). destruct (f x) as [out' r]. exact Hf.
Qed.

Lemma silent_fold_M {A S} (body : S -> A -> M S) (l : list A) (s : S) :
  (forall s x, output (body s x) = []) -> output (fold_M body l s) = [].
Proof.
  intros Hb. revert s. induction l as [| x l IH]; intros s; [reflexivity |].
  cbn [fold_M]. apply silent_bind; [apply Hb | exact IH].
Qed.

Lemma silent_column (df : DataFrame) (name : string) :
  output (column df name) = [].
Proof.
  unfold column.
  repeat match goal with
         | |- context [if ?b then _ else _] => destruct b; [reflexivity |]
         end.
  reflexivity.
Qed.

Lemma silent_quantile (values : list Q) (q : Q) :
  output (quantile values q) = [].
Proof.
  unfold quantile. destruct (Qle_bool 0 q && Qle_bool q 1); [| reflexivity].
  destruct values; reflexivity.
Qed.

Lemma silent_calculate_band_line (df : DataFrame) (metric ticker : string) :
  output (calculate_band_line df metric ticker) = [].
Proof.
  unfold calculate_band_line, smoothed_base.
  apply silent_bind.
  - apply silent_bind; [apply silent_column | reflexivity].
  - intros smoothed. destruct (String.eqb metric "PER"); [reflexivity |].
    apply silent_fold_M. intros acc [[q c] l].
    apply silent_bind; [apply silent_column |]. intros col.
    apply silent_bind; [apply silent_quantile | reflexivity].
Qed.

End Silent.

(** X2. On a frame without rows [plot_band_chart] always raises, for every
    ticker and every metric, before it prints or saves anything: the test
    [df.empty] in [main] is what keeps it from being called there. *)
Theorem plot_band_chart_empty_frame (ticker metric output_filename : string) :
  exists e, plot_band_chart [] ticker metric output_filename = raise e.
Proof.
  unfold plot_band_chart, draw_band_chart.
  destruct (dict_get STOCK_INFO ticker) as [out [e | info]] eqn:Hinfo.
  - exists e. revert Hinfo. unfold STOCK_INFO, SAMSUNG, HYNIX. cbn [dict_get].
    destruct (String.eqb "005930" ticker); [discriminate |].
    destruct (String.eqb "000660" ticker); [discriminate |].
    intros H. injection H as <- <-. reflexivity.
  - assert (out = []) as ->.
    { revert Hinfo. unfold STOCK_INFO, SAMSUNG, HYNIX. cbn [dict_get].
      destruct (String.eqb "005930" ticker); [intros H; injection H; auto |].
      destruct (String.eqb "000660" ticker); [intros H; injection H; auto |].
      discriminate. }
    pose proof (silent_calculate_band_line [] metric ticker) as Hs.
    destruct (calculate_band_line [] metric ticker) as [out [e | bands]];
      cbn in Hs; subst out.
    + exists e. reflexivity.
    + exists IndexError. reflexivity.
Qed.

(** X3. The band calculator is free of side effects: whether it returns
    bands or raises, it prints nothing and saves nothing, for every frame,
    metric and ticker. *)
Theorem calculate_band_line_silent (df : DataFrame) (metric ticker : string) :
  output (calculate_band_line df metric ticker) = []
  /\ saved_files (output (calculate_band_line df metric ticker)) = [].
Proof.
  rewrite silent_calculate_band_line. split; reflexivity.
Qed.

Lemma column_cases (df : DataFrame) (name : string) :
  (exists col, column df name = ret col /\ length col = length df)
  \/ column df name = raise (KeyError name).
Proof.
  unfold column.
  repeat match goal with
         | |- context [if ?b then _ else _] =>
             destruct b; [left; eexists; split; [reflexivity | apply length_map] |]
         end.
  right. reflexivity.
Qed.

Lemma column_unknown (df : DataFrame) (metric : string) :
  ~ In metric ["종가"; "PER"; "PBR"; "EPS"; "BPS"] ->
  column df metric = raise (KeyError metric).
Proof.
  intros Hnot. unfold column.
  repeat match goal with
         | |- context [if String.eqb metric ?c then _ else _] =>
             destruct (String.eqb_spec metric c) as [-> | _];
             [exfalso; apply Hnot; simpl; tauto |]
         end.
  reflexivity.
Qed.

(** X4. A metric that is not the name of a column makes the band calculator
    raise [KeyError] with that name: only the exact string PER selects the
    fixed multiples, everything else is looked up as a column. *)
Theorem calculate_band_line_unknown_metric
        (df : DataFrame) (metric ticker : string) :
  df <> [] ->
  ~ In metric ["종가"; "PER"; "PBR"; "EPS"; "BPS"] ->
  calculate_band_line df metric ticker = raise (KeyError metric).
Proof.
  intros _ Hnot.
  assert (E : String.eqb metric "PER" = false).
  { apply String.eqb_neq. intros ->. apply Hnot. simpl. tauto. }
  unfold calculate_band_line, smoothed_base, base_col. rewrite E.
  change (column df "BPS") with (ret (map BPS df)). rewrite !bind_ret.
  cbn [BAND_QUANTILE fold_M]. rewrite (column_unknown df metric Hnot).
  reflexivity.
Qed.

Lemma calculate_band_line_unknown_metric_witness :
  calculate_band_line sample_df "per" "005930" = raise (KeyError "per").
Proof.
  apply calculate_band_line_unknown_metric.
  - discriminate.
  - intros H. repeat (destruct H as [H | H]; [discriminate |]). exact H.
Defined.

(** X5. Every metric other than PER that names a column takes the quantile
    branch on the BPS base: the five bands carry the 0.10 to 0.90 quantiles
    of that column, and their lines are the smoothed BPS series times these
    quantiles, also for the columns EPS, BPS and the closing price. *)
Theorem calculate_band_line_quantile_branch
        (df : DataFrame) (metric ticker : string) (col : list Q) :
  df <> [] ->
  metric <> "PER" ->
  column df metric = ret col ->
  exists smoothed bands,
    smoothed_base df metric = ret smoothed
    /\ smoothed = rolling_mean 120 1 (map BPS df)
    /\ calculate_band_line df metric ticker = ret bands
    /\ labels_of bands = ["10%"; "25%"; "50%"; "75%"; "90%"]
    /\ multiples_of bands
       = map (fun p => Some (quantile_value col p)) [0.10; 0.25; 0.50; 0.75; 0.90]
    /\ lines_follow smoothed bands.
Proof.
  intros Hdf Hm Hcol.
  assert (E : String.eqb metric "PER" = false) by (apply String.eqb_neq; exact Hm).
  assert (Hne : col <> []).
  { destruct (column_cases df metric) as [(col' & Hc & Hl) | Hc];
      rewrite Hc in Hcol; [| discriminate].
    apply ret_inj in Hcol. subst col'. destruct col; [| discriminate].
    destruct df; [congruence | discriminate]. }
  exists (rolling_mean 120 1 (map BPS df)),
         (quantile_bands (rolling_mean 120 1 (map BPS df)) col).
  assert (Hsm : smoothed_base df metric = ret (rolling_mean 120 1 (map BPS df))).
  { unfold smoothed_base, base_col. rewrite E. reflexivity. }
  split; [exact Hsm |]. split; [reflexivity |].
  split.
  { unfold calculate_band_line. rewrite Hsm, bind_ret, E.
    cbn [BAND_QUANTILE fold_M]. rewrite Hcol.
    destruct col as [| c col]; [congruence | reflexivity]. }
  split; [reflexivity |]. split; [reflexivity |].
  apply quantile_bands_lines.
Qed.

Lemma calculate_band_line_quantile_branch_witness :
  exists smoothed bands,
    smoothed_base sample_df "EPS" = ret smoothed
    /\ smoothed = rolling_mean 120 1 (map BPS sample_df)
    /\ calculate_band_line sample_df "EPS" "005930" = ret bands
    /\ labels_of bands = ["10%"; "25%"; "50%"; "75%"; "90%"]
    /\ multiples_of bands
       = map (fun p => Some (quantile_value (map EPS sample_df) p))
             [0.10; 0.25; 0.50; 0.75; 0.90]
    /\ lines_follow smoothed bands.
Proof.
  apply (calculate_band_line_quantile_branch sample_df "EPS" "005930").
  - discriminate.
  - discriminate.
  - reflexivity.
Defined.

(** ** The smoothed base and the band lines *)

Lemma Qsum_bounds (lo hi : Q) (l : list Q) :
  (forall x, In x l -> lo <= x /\ x <= hi) ->
  lo * of_nat (length l) <= Qsum l /\ Qsum l <= hi * of_nat (length l).
Proof.
  induction l as [| y l IH]; intros H.
  - cbn [Qsum length]. change (of_nat 0) with 0. split; lra.
  - cbn [Qsum length]. rewrite of_nat_S.
    destruct (H y (or_introl eq_refl)) as [Hlo Hhi].
    destruct IH as [IHlo IHhi]; [intros x Hx; apply H; right; exact Hx |].
    split; lra.
Qed.

Lemma mean_bounds (lo hi : Q) (l : list Q) :
  l <> [] ->
  (forall x, In x l -> lo <= x /\ x <= hi) ->
  lo <= mean l /\ mean l <= hi.
Proof.
  intros Hne H. destruct (Qsum_bounds lo hi l H) as [Hlo Hhi].
  assert (Hpos : 0 < of_nat (length l)).
  { apply of_nat_pos. destruct l; [congruence | simpl; lia]. }
  unfold mean. split.
  - apply Qle_shift_div_l; assumption.
  - apply Qle_shift_div_r; assumption.
Qed.

Lemma rolling_mean_bounds (w : nat) (lo hi : Q) (base : list Q) :
  (1 <= w)%nat ->
  (forall x, In x base -> lo <= x /\ x <= hi) ->
  Forall (fun s => exists v, s = Some v /\ lo <= v /\ v <= hi)
         (rolling_mean w 1 base).
Proof.
  intros Hw Hb.
  destruct (rolling_mean_spec w base Hw) as (Hlen & Hnth & _).
  apply Forall_forall. intros s Hs.
  destruct (In_nth _ _ NaN Hs) as (i & Hi & <-). rewrite Hlen in Hi.
  specialize (Hnth i Hi).
  destruct (nth i (rolling_mean w 1 base) NaN) as [v |];
    cbn [num_eq] in Hnth; [| contradiction].
  exists v. split; [reflexivity |]. rewrite Hnth.
  apply mean_bounds.
  - intros E. apply (f_equal (@length Q)) in E.
    rewrite trailing_window_length in E by exact Hi. simpl in E. lia.
  - intros x Hx. apply Hb. unfold trailing_window in Hx.
    apply In_skipn, In_firstn in Hx. exact Hx.
Qed.

(** X6. Smoothing never leaves the range of the data: when every EPS (for
    PER) or BPS (for PBR) of the frame lies between two bounds, so does
    every value of the smoothed base, from the first row on. *)
Theorem smoothed_base_within_range (df : DataFrame) (lo hi : Q) :
  ((forall r, In r df -> lo <= EPS r /\ EPS r <= hi) ->
   exists smoothed,
     smoothed_base df "PER" = ret smoothed
     /\ Forall (fun s => exists v, s = Some v /\ lo <= v /\ v <= hi) smoothed)
  /\ ((forall r, In r df -> lo <= BPS r /\ BPS r <= hi) ->
      exists smoothed,
        smoothed_base df "PBR" = ret smoothed
        /\ Forall (fun s => exists v, s = Some v /\ lo <= v /\ v <= hi) smoothed).
Proof.
  split; intros H; eexists; (split; [reflexivity |]);
    apply rolling_mean_bounds; try lia;
    intros x Hx; apply in_map_iff in Hx; destruct Hx as (r & <- & Hr);
    apply H; exact Hr.
Qed.

Lemma smoothed_base_within_range_witness :
  exists smoothed,
    smoothed_base sample_df "PER" = ret smoothed
    /\ Forall (fun s => exists v, s = Some v /\ 5000 <= v /\ v <= 6000) smoothed.
Proof.
  apply (proj1 (smoothed_base_within_range sample_df 5000 6000)).
  intros r [<- | [<- | []]]; cbn; split; discriminate.
Defined.

Lemma rolling_mean_finite (w : nat) (base : list Q) :
  (1 <= w)%nat -> Forall is_finite (rolling_mean w 1 base).
Proof.
  intros Hw.
  destruct (rolling_mean_spec w base Hw) as (Hlen & Hnth & _).
  apply Forall_forall. intros s Hs.
  destruct (In_nth _ _ NaN Hs) as (i & Hi & <-). rewrite Hlen in Hi.
  specialize (Hnth i Hi).
  destruct (nth i (rolling_mean w 1 base) NaN) as [v |];
    cbn [num_eq] in Hnth; [| contradiction].
  exists v. reflexivity.
Qed.

Lemma series_mul_finite (s : list num) (m : Q) :
  Forall is_finite s -> Forall is_finite (series_mul s (Some m)).
Proof.
  intros H. unfold series_mul. apply Forall_map.
  apply Forall_impl with (2 := H). intros a [x ->]. eexists. reflexivity.
Qed.

(** X7. On a frame with rows whose EPS, BPS and PBR are all numbers (the
    frames of this model; a NaN from the provider is outside it), every
    band line of either metric has one value per row and no gap: thanks to
    [min_periods=1] the lines are numbers from the first row on. *)
Theorem band_lines_defined_everywhere
        (df : DataFrame) (metric ticker : string) :
  df <> [] ->
  metric = "PER" \/ metric = "PBR" ->
  exists bands,
    calculate_band_line df metric ticker = ret bands
    /\ length bands = 5%nat
    /\ Forall (fun x => length (line (snd x)) = length df
                        /\ Forall is_finite (line (snd x))
                        /\ is_finite (multiple (snd x)))
              bands.
Proof.
  intros Hdf [-> | ->].
  - eexists. split; [apply calculate_band_line_PER |].
    split; [destruct (String.eqb ticker "005930"); reflexivity |].
    apply Forall_forall. intros x Hx. unfold fixed_bands in Hx.
    apply in_map_iff in Hx. destruct Hx as ([[val c] l] & <- & _). cbn.
    split; [| split].
    + unfold series_mul, rolling_mean.
      rewrite length_map, roll_mean_length, length_map. reflexivity.
    + apply series_mul_finite, rolling_mean_finite. lia.
    + eexists. reflexivity.
  - eexists. split; [apply calculate_band_line_PBR; exact Hdf |].
    split; [reflexivity |].
    apply Forall_forall. intros x Hx. unfold quantile_bands in Hx.
    apply in_map_iff in Hx. destruct Hx as ([[q c] l] & <- & _). cbn.
    split; [| split].
    + unfold series_mul, rolling_mean.
      rewrite length_map, roll_mean_length, length_map. reflexivity.
    + apply series_mul_finite, rolling_mean_finite. lia.
    + eexists. reflexivity.
Qed.

Lemma band_lines_defined_everywhere_witness :
  exists bands,
    calculate_band_line sample_df "PBR" "000660" = ret bands
    /\ length bands = 5%nat
    /\ Forall (fun x => length (line (snd x)) = length sample_df
                        /\ Forall is_finite (line (snd x))
                        /\ is_finite (multiple (snd x)))
              bands.
Proof.
  apply band_lines_defined_everywhere; [discriminate | right; reflexivity].
Defined.

Lemma scaled_ascending (s : Q) (ms : list Q) :
  0 <= s -> StronglySorted Qle ms ->
  StronglySorted num_le (map (fun m => num_mul (Some s) (Some m)) ms).
Proof.
  intros Hs. induction 1 as [| m ms Hsorted IH Hm]; cbn [map].
  - constructor.
  - constructor; [exact IH |].
    apply Forall_map. apply Forall_impl with (2 := Hm).
    intros m' Hle. cbn. nra.
Qed.

Lemma scaled_descending (s : Q) (ms : list Q) :
  s <= 0 -> StronglySorted Qle ms ->
  StronglySorted (fun a b => num_le b a)
                 (map (fun m => num_mul (Some s) (Some m)) ms).
Proof.
  intros Hs. induction 1 as [| m ms Hsorted IH Hm]; cbn [map].
  - constructor.
  - constructor; [exact IH |].
    apply Forall_map. apply Forall_impl with (2 := Hm).
    intros m' Hle. cbn. nra.
Qed.

Lemma nth_series_mul (i : nat) (s : list num) (m : num) :
  nth i (series_mul s m) NaN = num_mul (nth i s NaN) m.
Proof.
  unfold series_mul. change NaN with (num_mul NaN m) at 1.
  apply (map_nth (fun x => num_mul x m)).
Qed.

Lemma values_at_quantile_bands (i : nat) (smoothed : list num) (col : list Q) :
  values_at i (quantile_bands smoothed col)
  = map (fun m => num_mul (nth i smoothed NaN) (Some m))
        (map (fun p => quantile_value col p) [0.10; 0.25; 0.50; 0.75; 0.90]).
Proof.
  unfold values_at, quantile_bands, BAND_QUANTILE. cbn [map snd line].
  rewrite !nth_series_mul. reflexivity.
Qed.

Lemma values_at_fixed (i : nat) (smoothed : list num) table :
  values_at i (fixed_bands smoothed table)
  = map (fun m => num_mul (nth i smoothed NaN) (Some m))
        (map (fun x => fst (fst x)) table).
Proof.
  rewrite values_at_fixed_bands, map_map. apply map_ext.
  intros [[val c] l]. reflexivity.
Qed.

Lemma per_tables_ascending (ticker : string) :
  StronglySorted Qle
    (map (fun x => fst (fst x))
         (if String.eqb ticker "005930" then SAMSUNG_MULTIPLES
          else HYNIX_MULTIPLES)).
Proof.
  destruct (String.eqb ticker "005930"); cbn;
    repeat constructor; discriminate.
Qed.

Lemma quantiles_ascending (col : list Q) :
  col <> [] ->
  StronglySorted Qle
    (map (fun p => quantile_value col p) [0.10; 0.25; 0.50; 0.75; 0.90]).
Proof.
  intros Hne. apply Sorted_StronglySorted.
  - intros x y z. apply Qle_trans.
  - cbn [map].
    repeat constructor; apply quantile_value_monotone; (exact Hne || lra).
Qed.

Lemma bounded_above (l : list Q) : exists hi, forall x, In x l -> x <= hi.
Proof.
  induction l as [| y l [hi IH]].
  - exists 0. intros x [].
  - destruct (Qlt_le_dec hi y) as [Hlt | Hle].
    + exists y. intros x [<- | Hx]; [apply Qle_refl |].
      apply Qle_trans with hi; [apply IH, Hx | apply Qlt_le_weak, Hlt].
    + exists hi. intros x [<- | Hx]; [exact Hle | apply IH, Hx].
Qed.

Lemma bounded_below (l : list Q) : exists lo, forall x, In x l -> lo <= x.
Proof.
  induction l as [| y l [lo IH]].
  - exists 0. intros x [].
  - destruct (Qlt_le_dec y lo) as [Hlt | Hle].
    + exists y. intros x [<- | Hx]; [apply Qle_refl |].
      apply Qle_trans with lo; [apply Qlt_le_weak, Hlt | apply IH, Hx].
    + exists lo. intros x [<- | Hx]; [exact Hle | apply IH, Hx].
Qed.

(** X8. The band lines of a chart never cross where they should not: on a
    frame with rows whose base column (EPS for PER, BPS for PBR) is
    nowhere negative, at every row the five band values ascend in the
    order of the bands; where the base column is nowhere positive they
    descend, the band of the largest multiple lying lowest. *)
Theorem band_lines_ordered (df : DataFrame) (metric ticker : string) :
  df <> [] ->
  metric = "PER" \/ metric = "PBR" ->
  let base := if String.eqb metric "PER" then map EPS df else map BPS df in
  exists bands,
    calculate_band_line df metric ticker = ret bands
    /\ ((forall x, In x base -> 0 <= x) ->
        forall i, (i < length df)%nat ->
                  StronglySorted num_le (values_at i bands))
    /\ ((forall x, In x base -> x <= 0) ->
        forall i, (i < length df)%nat ->
                  StronglySorted (fun a b => num_le b a) (values_at i bands)).
Proof.
  intros Hdf Hm base.
  assert (Hsm : forall lo hi i,
             (forall x, In x base -> lo <= x /\ x <= hi) ->
             (i < length df)%nat ->
             exists v, nth i (rolling_mean 120 1 base) NaN = Some v
                       /\ lo <= v /\ v <= hi).
  { intros lo hi i Hb Hi.
    pose proof (rolling_mean_bounds 120 lo hi base ltac:(lia) Hb) as HF.
    rewrite Forall_forall in HF. apply HF. apply nth_In.
    unfold rolling_mean. rewrite roll_mean_length.
    unfold base. destruct (String.eqb metric "PER"); rewrite length_map; exact Hi. }
  destruct (bounded_above base) as [hi Hhi].
  destruct (bounded_below base) as [lo Hlo].
  assert (Hpos : (forall x, In x base -> 0 <= x) ->
                 forall i, (i < length df)%nat ->
                 exists v, nth i (rolling_mean 120 1 base) NaN = Some v /\ 0 <= v).
  { intros H i Hi.
    destruct (Hsm 0 hi i) as (v & Hv & Hv0 & _); [| exact Hi |].
    - intros x Hx. split; [apply H | apply Hhi]; exact Hx.
    - exists v. split; assumption. }
  assert (Hneg : (forall x, In x base -> x <= 0) ->
                 forall i, (i < length df)%nat ->
                 exists v, nth i (rolling_mean 120 1 base) NaN = Some v /\ v <= 0).
  { intros H i Hi.
    destruct (Hsm lo 0 i) as (v & Hv & _ & Hv0); [| exact Hi |].
    - intros x Hx. split; [apply Hlo | apply H]; exact Hx.
    - exists v. split; assumption. }
  clear Hsm Hhi Hlo.
  destruct Hm as [-> | ->]; cbn [String.eqb Ascii.eqb Bool.eqb] in base;
    subst base.
  - eexists. split; [apply calculate_band_line_PER |]. split.
    + intros H i Hi. destruct (Hpos H i Hi) as (v & Hv & Hv0).
      rewrite values_at_fixed, Hv.
      apply scaled_ascending; [exact Hv0 | apply per_tables_ascending].
    + intros H i Hi. destruct (Hneg H i Hi) as (v & Hv & Hv0).
      rewrite values_at_fixed, Hv.
      apply scaled_descending; [exact Hv0 | apply per_tables_ascending].
  - assert (Hcol : map PBR df <> []).
    { destruct df; [congruence | discriminate]. }
    eexists. split; [apply calculate_band_line_PBR; exact Hdf |]. split.
    + intros H i Hi. destruct (Hpos H i Hi) as (v & Hv & Hv0).
      rewrite values_at_quantile_bands, Hv.
      apply scaled_ascending; [exact Hv0 | apply quantiles_ascending, Hcol].
    + intros H i Hi. destruct (Hneg H i Hi) as (v & Hv & Hv0).
      rewrite values_at_quantile_bands, Hv.
      apply scaled_descending; [exact Hv0 | apply quantiles_ascending, Hcol].
Qed.

Lemma band_lines_ordered_witness :
  exists bands,
    calculate_band_line sample_df "PER" "005930" = ret bands
    /\ StronglySorted num_le (values_at 1 bands).
Proof.
  destruct (band_lines_ordered sample_df "PER" "005930")
    as (bands & Hcalc & Hasc & _); [discriminate | left; reflexivity |].
  exists bands. split; [exact Hcalc |].
  apply Hasc.
  - intros x [<- | [<- | []]]; discriminate.
  - cbn. lia.
Defined.

(** ** Quantile multiples *)

Lemma quantile_value_in_range (values : list Q) (p : Q) :
  values <> [] -> 0 <= p -> p <= 1 ->
  exists a b, In a values /\ In b values
              /\ a <= quantile_value values p /\ quantile_value values p <= b.
Proof.
  intros Hne H0 H1. unfold quantile_value.
  set (s := sort_values values).
  assert (Hlen : (1 <= length s)%nat).
  { unfold s. rewrite sort_values_length.
    destruct values; [congruence | simpl; lia]. }
  assert (Hn : 0 <= of_nat (length s - 1)).
  { change 0 with (of_nat 0). apply of_nat_le. lia. }
  set (h := of_nat (length s - 1) * p).
  assert (Hh0 : 0 <= h) by (unfold h; nra).
  assert (Hh1 : h <= of_nat (length s - 1)) by (unfold h; nra).
  destruct (interpolate_between s (sort_values_sorted values) Hlen h Hh0 Hh1)
    as [Hlow Hup].
  pose proof (floor_max _ _ Hh0 Hh1) as Hlo.
  exists (nth (Z.to_nat (Qfloor h)) s 0),
         (nth (Nat.min (S (Z.to_nat (Qfloor h))) (length s - 1)) s 0).
  repeat split; try assumption;
    apply (Permutation_in _ (sort_values_perm values)); fold s;
    apply nth_In; lia.
Qed.

Lemma band_quantile_probabilities (q : Q) (c l : string) :
  In (q, c, l) BAND_QUANTILE -> 0 <= q /\ q <= 1.
Proof.
  unfold BAND_QUANTILE. intros H.
  repeat (destruct H as [H | H]; [injection H as <- _ _; split; lra |]).
  destruct H.
Qed.

(** X9. Each PBR band multiple lies within the data: on a frame with rows,
    every one of the five quantile multiples is at least some PBR value of
    the frame and at most some PBR value of the frame. *)
Theorem pbr_multiples_within_column (df : DataFrame) (ticker : string) :
  df <> [] ->
  exists bands,
    calculate_band_line df "PBR" ticker = ret bands
    /\ length bands = 5%nat
    /\ Forall (fun x => exists m a b,
                   multiple (snd x) = Some m
                   /\ In a (map PBR df) /\ In b (map PBR df)
                   /\ a <= m /\ m <= b)
              bands.
Proof.
  intros Hdf.
  assert (Hcol : map PBR df <> []).
  { destruct df; [congruence | discriminate]. }
  eexists. split; [apply calculate_band_line_PBR; exact Hdf |].
  split; [reflexivity |].
  apply Forall_forall. intros x Hx. unfold quantile_bands in Hx.
  apply in_map_iff in Hx. destruct Hx as ([[q c] l] & <- & Hq).
  destruct (band_quantile_probabilities q c l Hq) as [H0 H1].
  destruct (quantile_value_in_range (map PBR df) q Hcol H0 H1)
    as (a & b & Ha & Hb & Hlo & Hhi).
  exists (quantile_value (map PBR df) q), a, b.
  repeat split; assumption.
Qed.

Lemma pbr_multiples_within_column_witness :
  exists bands,
    calculate_band_line five_row_df "PBR" "005930" = ret bands
    /\ length bands = 5%nat
    /\ Forall (fun x => exists m a b,
                   multiple (snd x) = Some m
                   /\ In a (map PBR five_row_df) /\ In b (map PBR five_row_df)
                   /\ a <= m /\ m <= b)
              bands.
Proof.
  apply pbr_multiples_within_column. discriminate.
Defined.

(** X10. Preparation and band calculation together: on the frame
    [fetch_stock_data] returns, when it has rows, all five PBR multiples
    are positive numbers, because the filter leaves only rows with a
    positive PBR. *)
Theorem prepared_pbr_multiples_positive
        (src : Adapter) (ticker start_date end_date : string) :
  prepared src ticker start_date end_date <> [] ->
  exists bands,
    calculate_band_line (prepared src ticker start_date end_date) "PBR" ticker
    = ret bands
    /\ length bands = 5%nat
    /\ Forall (fun x => exists m, multiple (snd x) = Some m /\ 0 < m) bands.
Proof.
  intros Hdf.
  set (df := prepared src ticker start_date end_date) in *.
  assert (Hpos : forall a, In a (map PBR df) -> 0 < a).
  { intros a Ha. apply in_map_iff in Ha. destruct Ha as (r & <- & Hr).
    unfold df in Hr. rewrite prepared_eq in Hr. apply filter_In in Hr.
    apply valid_row_spec, Hr. }
  assert (Hcol : map PBR df <> []).
  { destruct df; [congruence | discriminate]. }
  eexists. split; [apply calculate_band_line_PBR; exact Hdf |].
  split; [reflexivity |].
  apply Forall_forall. intros x Hx. unfold quantile_bands in Hx.
  apply in_map_iff in Hx. destruct Hx as ([[q c] l] & <- & Hq).
  destruct (band_quantile_probabilities q c l Hq) as [H0 H1].
  destruct (quantile_value_in_range (map PBR df) q Hcol H0 H1)
    as (a & b & Ha & Hb & Hlo & Hhi).
  exists (quantile_value (map PBR df) q). split; [reflexivity |].
  apply Qlt_le_trans with a; [apply Hpos, Ha | exact Hlo].
Qed.

Lemma prepared_pbr_multiples_positive_witness :
  exists bands,
    calculate_band_line (prepared two_day_src "005930" "20240101" "20240131")
                        "PBR" "005930"
    = ret bands
    /\ length bands = 5%nat
    /\ Forall (fun x => exists m, multiple (snd x) = Some m /\ 0 < m) bands.
Proof.
  apply prepared_pbr_multiples_positive. discriminate.
Defined.

(** ** What the bands depend on *)

(** X11. The bands read only what they need: PER bands are the same for
    two frames with the same EPS column, and for any two tickers other
    than 005930; bands of any other metric are the same for every ticker,
    and PBR bands are the same for two frames with the same BPS and PBR
    columns. Dates and closing prices never enter. *)
Theorem bands_depend_on_base_and_metric_columns
        (df1 df2 : DataFrame) (metric ticker1 ticker2 : string) :
  (map EPS df1 = map EPS df2 ->
   calculate_band_line df1 "PER" ticker1 = calculate_band_line df2 "PER" ticker1)
  /\ (ticker1 <> "005930" -> ticker2 <> "005930" ->
      calculate_band_line df1 "PER" ticker1
      = calculate_band_line df1 "PER" ticker2)
  /\ (metric <> "PER" ->
      calculate_band_line df1 metric ticker1
      = calculate_band_line df1 metric ticker2)
  /\ (map BPS df1 = map BPS df2 -> map PBR df1 = map PBR df2 ->
      calculate_band_line df1 "PBR" ticker1
      = calculate_band_line df2 "PBR" ticker1).
Proof.
  split; [| split; [| split]].
  - intros H. rewrite !calculate_band_line_PER, H. reflexivity.
  - intros H1 H2. rewrite !calculate_band_line_PER.
    apply String.eqb_neq in H1, H2. rewrite H1, H2. reflexivity.
  - intros H. apply String.eqb_neq in H.
    unfold calculate_band_line. rewrite H. reflexivity.
  - intros Hb Hp. unfold calculate_band_line, smoothed_base, base_col.
    cbn [String.eqb Ascii.eqb Bool.eqb].
    change (column df1 "BPS") with (ret (map BPS df1)).
    change (column df2 "BPS") with (ret (map BPS df2)).
    change (column df1 "PBR") with (ret (map PBR df1)).
    change (column df2 "PBR") with (ret (map PBR df2)).
    rewrite Hb, Hp. reflexivity.
Qed.

Lemma bands_depend_on_base_and_metric_columns_witness :
  calculate_band_line sample_df "PER" "000660"
  = calculate_band_line sample_df "PER" "035420".
Proof.
  apply (proj1 (proj2 (bands_depend_on_base_and_metric_columns
                         sample_df sample_df "PBR" "000660" "035420")));
    discriminate.
Defined.

(** ** Order of the prepared series *)

Lemma filter_date_absent (fund : list FundRow) (d : Z) :
  ~ In d (map f_date fund) ->
  filter (fun f => Z.eqb (f_date f) d) fund = [].
Proof.
  induction fund as [| f fs IH]; intros H; [reflexivity |].
  cbn [filter]. destruct (Z.eqb_spec (f_date f) d) as [E | _].
  - exfalso. apply H. left. exact E.
  - apply IH. intros Hin. apply H. right. exact Hin.
Qed.

Lemma filter_date_unique (fund : list FundRow) (d : Z) :
  NoDup (map f_date fund) ->
  (length (filter (fun f => Z.eqb (f_date f) d) fund) <= 1)%nat.
Proof.
  induction fund as [| f fs IH]; intros H; [simpl; lia |].
  cbn [map] in H. inversion H as [| ? ? Hnot Hrest]; subst.
  cbn [filter]. destruct (Z.eqb_spec (f_date f) d) as [E | _].
  - rewrite filter_date_absent by (rewrite <- E; exact Hnot). simpl. lia.
  - apply IH. exact Hrest.
Qed.

Lemma StronglySorted_filter {A} (R : A -> A -> Prop) (f : A -> bool) (l : list A) :
  StronglySorted R l -> StronglySorted R (filter f l).
Proof.
  induction 1 as [| x l Hs IH Hx]; cbn [filter]; [constructor |].
  destruct (f x); [| exact IH].
  constructor; [exact IH |].
  apply Forall_forall. intros y Hy. apply filter_In in Hy.
  rewrite Forall_forall in Hx. apply Hx, Hy.
Qed.

Lemma merge_ascending (price : list PriceRow) (fund : list FundRow) :
  StronglySorted Z.lt (map p_date price) ->
  NoDup (map f_date fund) ->
  StronglySorted (fun a b => (date a < date b)%Z) (merge price fund)
  /\ (length (merge price fund) <= length price)%nat.
Proof.
  intros Hp Hf. induction price as [| p ps IH].
  - split; [constructor | simpl; lia].
  - cbn [map] in Hp. apply StronglySorted_inv in Hp. destruct Hp as [Hps Hlt].
    destruct (IH Hps) as [IHs IHl]. clear IH.
    change (merge (p :: ps) fund)
      with (map (join p) (filter (fun f => Z.eqb (f_date f) (p_date p)) fund)
              ++ merge ps fund).
    pose proof (filter_date_unique fund (p_date p) Hf) as Hone.
    destruct (filter (fun f => Z.eqb (f_date f) (p_date p)) fund)
      as [| f [| f' fs]]; cbn [map app length] in *; [| | lia].
    + split; [exact IHs | lia].
    + split; [| lia]. constructor; [exact IHs |].
      apply Forall_forall. intros r Hr. apply merge_In in Hr.
      destruct Hr as (p' & f' & Hp' & _ & _ & ->). cbn [join date].
      rewrite Forall_forall in Hlt. apply Hlt, in_map, Hp'.
Qed.

(** X12. The prepared series keeps the order of the price series: when the
    price dates ascend strictly and no fundamental date occurs twice, the
    dates of the frame [fetch_stock_data] returns ascend strictly too, so
    no date occurs twice in it, and it has at most one row per price row. *)
Theorem prepared_dates_ascending
        (src : Adapter) (ticker start_date end_date : string) :
  let price := get_market_ohlcv_by_date src start_date end_date ticker in
  let fund := get_market_fundamental_by_date src start_date end_date ticker in
  let df := prepared src ticker start_date end_date in
  StronglySorted Z.lt (map p_date price) ->
  NoDup (map f_date fund) ->
  StronglySorted Z.lt (index df)
  /\ NoDup (index df)
  /\ (length df <= length price)%nat.
Proof.
  intros price fund df Hp Hf.
  destruct (merge_ascending price fund Hp Hf) as [Hs Hl].
  assert (Hsorted : StronglySorted Z.lt (index df)).
  { unfold df. rewrite prepared_eq. fold price fund.
    apply (StronglySorted_filter _ valid_row) in Hs.
    unfold index.
    induction Hs as [| x l _ IH Hx]; cbn [map]; constructor; [exact IH |].
    apply Forall_map. exact Hx. }
  split; [exact Hsorted |]. split.
  - clear - Hsorted. induction Hsorted as [| d l _ IH Hd]; constructor;
      [| exact IH].
    intros Hin. rewrite Forall_forall in Hd. specialize (Hd d Hin). lia.
  - unfold df. rewrite prepared_eq. fold price fund.
    apply Nat.le_trans with (2 := Hl). apply filter_length_le.
Qed.

Lemma prepared_dates_ascending_witness :
  StronglySorted Z.lt
    (index (prepared two_day_src "005930" "20240101" "20240131"))
  /\ NoDup (index (prepared two_day_src "005930" "20240101" "20240131"))
  /\ (length (prepared two_day_src "005930" "20240101" "20240131") <= 2)%nat.
Proof.
  apply (prepared_dates_ascending two_day_src "005930" "20240101" "20240131").
  - repeat constructor.
  - repeat constructor; cbn; intros H;
      repeat (destruct H as [H | H]; [discriminate |]); exact H.
Defined.

(** ** The figure *)

Lemma adjacent_fst {A} (l : list A) : map fst (adjacent l) = removelast l.
Proof.
  induction l as [| x [| y l] IH]; [reflexivity | reflexivity |].
  change (adjacent (x :: y :: l)) with ((x, y) :: adjacent (y :: l)).
  cbn [map fst]. rewrite IH. reflexivity.
Qed.

Lemma adjacent_snd {A} (l : list A) : map snd (adjacent l) = tl l.
Proof.
  induction l as [| x [| y l] IH]; [reflexivity | reflexivity |].
  change (adjacent (x :: y :: l)) with ((x, y) :: adjacent (y :: l)).
  cbn [map snd tl]. rewrite IH. reflexivity.
Qed.

Lemma calculate_band_line_five (df : DataFrame) (metric ticker : string)
      (bands : dict Band) :
  df <> [] ->
  metric = "PER" \/ metric = "PBR" ->
  calculate_band_line df metric ticker = ret bands ->
  length bands = 5%nat.
Proof.
  intros Hdf [-> | ->] H.
  - rewrite calculate_band_line_PER in H. apply ret_inj in H. subst bands.
    destruct (String.eqb ticker "005930"); reflexivity.
  - rewrite calculate_band_line_PBR in H by exact Hdf.
    apply ret_inj in H. subst bands. reflexivity.
Qed.

(** X13. Every chart that is drawn has five dashed band lines and four
    shaded regions, and the regions lie between neighbours: the lower
    boundaries are the lines of all drawn bands but the last, the upper
    boundaries those of all but the first, in drawing order. *)
Theorem filled_regions_between_neighbours
        (df : DataFrame) (ticker metric output_filename : string) :
  df <> [] ->
  ticker = "005930" \/ ticker = "000660" ->
  metric = "PER" \/ metric = "PBR" ->
  exists figure,
    saved_figure (output (plot_band_chart df ticker metric output_filename))
    = Some figure
    /\ length (plotted_bands figure) = 5%nat
    /\ length (filled_regions figure) = 4%nat
    /\ map fst (filled_regions figure)
       = removelast (map snd (plotted_bands figure))
    /\ map snd (filled_regions figure) = tl (map snd (plotted_bands figure)).
Proof.
  intros Hdf Ht Hm.
  assert (Hcalc : exists bands, calculate_band_line df metric ticker = ret bands).
  { destruct Hm as [-> | ->]; eexists;
      [apply calculate_band_line_PER | apply calculate_band_line_PBR, Hdf]. }
  destruct Hcalc as [bands Hcalc].
  destruct (plot_band_chart_run metric df ticker output_filename bands
              Hdf Ht Hm Hcalc) as (stock_name & figure & Hrun & Hp & Hf).
  exists figure. rewrite Hrun. split; [reflexivity |].
  set (sb := sorted_by band_key (items bands)) in *.
  assert (Hlen : length sb = 5%nat).
  { unfold sb. rewrite (Permutation_length (sorted_by_perm band_key _)).
    apply (calculate_band_line_five df metric ticker); assumption. }
  rewrite Hp, Hf, !map_map, !length_map. cbn [fst snd].
  split; [exact Hlen |]. split.
  - destruct sb as [| a [| b [| c [| d [| e [| ? ?]]]]]]; try discriminate.
    reflexivity.
  - rewrite <- (map_map fst (fun x => line (snd x))),
            <- (map_map snd (fun x => line (snd x))),
            adjacent_fst, adjacent_snd.
    split.
    + destruct sb as [| a [| b [| c [| d [| e [| ? ?]]]]]]; try discriminate.
      reflexivity.
    + destruct sb; reflexivity.
Qed.

Lemma filled_regions_between_neighbours_witness :
  exists figure,
    saved_figure
      (output (plot_band_chart sample_df "000660" "PBR" "hynix_pbr_band.png"))
    = Some figure
    /\ length (plotted_bands figure) = 5%nat
    /\ length (filled_regions figure) = 4%nat
    /\ map fst (filled_regions figure)
       = removelast (map snd (plotted_bands figure))
    /\ map snd (filled_regions figure) = tl (map snd (plotted_bands figure)).
Proof.
  apply filled_regions_between_neighbours;
    [discriminate | right; reflexivity | right; reflexivity].
Defined.

Lemma last_default {A} (l : list A) (d d' : A) :
  l <> [] -> last l d = last l d'.
Proof.
  induction l as [| x [| y l] IH]; intros H; [congruence | reflexivity |].
  change (last (y :: l) d = last (y :: l) d'). apply IH. discriminate.
Qed.

Lemma last_of_cons {A} (front rest : list A) (x y : A) :
  x :: rest = front ++ [y] -> last rest x = y.
Proof.
  intros H.
  assert (E : last (x :: rest) x = y) by (rewrite H; apply last_last).
  destruct rest as [| z rest]; [exact E |].
  exact E.
Qed.

Lemma last_map {A B} (f : A -> B) (l : list A) (x : A) :
  last (map f l) (f x) = f (last l x).
Proof.
  induction l as [| y [| z l] IH]; [reflexivity | reflexivity |].
  exact IH.
Qed.

Section FigureParts.
Variable metric : string.

Lemma annotations_fills (l : list ((string * Band) * (string * Band))) :
  annotations (map fill_between l) = [].
Proof.
  induction l as [| [[l1 b1] [l2 b2]] l IH]; [reflexivity | exact IH].
Qed.

Lemma annotations_plots (l : list (string * Band)) :
  annotations (map (plot_line metric) l) = [].
Proof.
  induction l as [| [label b] l IH]; [reflexivity | exact IH].
Qed.

Lemma price_lines_fills (l : list ((string * Band) * (string * Band))) :
  price_lines (map fill_between l) = [].
Proof.
  induction l as [| [[l1 b1] [l2 b2]] l IH]; [reflexivity | exact IH].
Qed.

Lemma price_lines_plots (l : list (string * Band)) :
  price_lines (map (plot_line metric) l) = [].
Proof.
  induction l as [| [label b] l IH]; [reflexivity | exact IH].
Qed.

End FigureParts.

(** X14. The chart is annotated with the last row of the frame: the
    annotation carries that row's date, its closing price and its value of
    the charted metric (PER or PBR), and the solid price line is the whole
    closing price column. *)
Theorem annotation_shows_last_row
        (front : list Row) (last_row : Row)
        (ticker metric output_filename : string) :
  let df := front ++ [last_row] in
  ticker = "005930" \/ ticker = "000660" ->
  metric = "PER" \/ metric = "PBR" ->
  exists figure,
    saved_figure (output (plot_band_chart df ticker metric output_filename))
    = Some figure
    /\ annotations figure
       = [(date last_row, close last_row,
           if String.eqb metric "PER" then PER last_row else PBR last_row)]
    /\ price_lines figure = [map close df].
Proof.
  intros df Ht Hm. subst df.
  destruct (front ++ [last_row]) as [| r rest] eqn:Edf;
    [destruct front; discriminate |].
  symmetry in Edf.
  assert (Hdf : r :: rest <> []) by discriminate.
  assert (Hcalc : exists bands,
             calculate_band_line (r :: rest) metric ticker = ret bands).
  { destruct Hm as [-> | ->]; eexists;
      [apply calculate_band_line_PER | apply calculate_band_line_PBR, Hdf]. }
  destruct Hcalc as [bands Hcalc].
  pose proof (last_of_cons front rest r last_row Edf) as Hlast.
  unfold plot_band_chart, draw_band_chart. rewrite Hcalc.
  destruct Ht as [-> | ->]; destruct Hm as [-> | ->];
    eexists; (split; [reflexivity |]);
    unfold annotations, price_lines; rewrite !flat_map_app;
    fold (annotations (map fill_between (adjacent (sorted_by band_key (items bands)))));
    fold (price_lines (map fill_between (adjacent (sorted_by band_key (items bands)))));
    rewrite annotations_fills, price_lines_fills;
    match goal with
    | |- context [map (plot_line ?m) ?l] =>
        fold (annotations (map (plot_line m) l));
        fold (price_lines (map (plot_line m) l));
        rewrite (annotations_plots m), (price_lines_plots m)
    end;
    cbn [flat_map app String.eqb Ascii.eqb Bool.eqb];
    rewrite <- Hlast,
      <- (last_map date), <- (last_map close),
      <- ?(last_map PER), <- ?(last_map PBR);
    split; reflexivity.
Qed.

Lemma annotation_shows_last_row_witness :
  exists figure,
    saved_figure
      (output (plot_band_chart sample_df "005930" "PBR" "samsung_pbr_band.png"))
    = Some figure
    /\ annotations figure = [(20240103%Z, 77000, 1.48)]
    /\ price_lines figure = [[79600; 77000]].
Proof.
  apply (annotation_shows_last_row
           [ {| date := 20240102; close := 79600; PER := 13.5; PBR := 1.52;
                EPS := 5777; BPS := 52002 |} ]
           {| date := 20240103; close := 77000; PER := 13.2; PBR := 1.48;
              EPS := 5777; BPS := 52002 |}
           "005930" "PBR" "samsung_pbr_band.png");
    [left | right]; reflexivity.
Defined.

(** ** Console output of a skipped ticker *)

(** X15. What a ticker without data prints: the two rules around the
    processing line, then the price error line when the price series is
    empty, or else the fundamentals error line when that series is empty,
    or else nothing (a frame emptied by the filter has no error line), and
    last the skip line. *)
Theorem skipped_ticker_console
        (src : Adapter) (start_date end_date ticker : string) (info : StockInfo) :
  no_data src ticker start_date end_date ->
  let price := get_market_ohlcv_by_date src start_date end_date ticker in
  let fund := get_market_fundamental_by_date src start_date end_date ticker in
  output (process_ticker src start_date end_date (ticker, info))
  = [Print MsgRule; Print (MsgProcessing (name info) ticker); Print MsgRule]
      ++ (if empty price then [Print (MsgNoPrice ticker)]
          else if empty fund then [Print (MsgNoFundamental ticker)]
          else [])
      ++ [Print (MsgSkipped (name info))].
Proof.
  intros Hno price fund. apply no_data_prepared in Hno.
  rewrite (process_ticker_skip _ _ _ _ _ Hno). cbn [output fst].
  do 2 f_equal. unfold fetch_stock_data. fold price fund.
  destruct price; [reflexivity |]. destruct fund; reflexivity.
Qed.

Lemma skipped_ticker_console_witness :
  output (process_ticker blank_day_src "20240101" "20240131" SAMSUNG)
  = [Print MsgRule; Print (MsgProcessing "삼성전자" "005930"); Print MsgRule;
     Print (MsgSkipped "삼성전자")].
Proof.
  apply (skipped_ticker_console blank_day_src "20240101" "20240131" "005930"
           (snd SAMSUNG)).
  right. right. reflexivity.
Defined.

(** ** Coinciding bands *)

(** X16. When the PBR of every row is the same number, all five PBR
    multiples equal it, so the five band lines coincide; the sort, being
    stable, then leaves the bands in the configured order 10% to 90%. *)
Theorem constant_pbr_bands_coincide
        (df : DataFrame) (ticker : string) (c : Q) :
  df <> [] ->
  (forall r, In r df -> PBR r == c) ->
  exists bands,
    calculate_band_line df "PBR" ticker = ret bands
    /\ Forall (fun x => exists m, multiple (snd x) = Some m /\ m == c) bands
    /\ sorted_by band_key (items bands) = items bands
    /\ labels_of (sorted_by band_key (items bands))
       = ["10%"; "25%"; "50%"; "75%"; "90%"].
Proof.
  intros Hdf Hc.
  assert (Hcol : map PBR df <> []).
  { destruct df; [congruence | discriminate]. }
  assert (Hin : forall a, In a (map PBR df) -> a == c).
  { intros a Ha. apply in_map_iff in Ha. destruct Ha as (r & <- & Hr).
    apply Hc, Hr. }
  assert (Hsorted : sorted_by band_key
                      (items (quantile_bands (rolling_mean 120 1 (map BPS df))
                                             (map PBR df)))
                    = items (quantile_bands (rolling_mean 120 1 (map BPS df))
                                            (map PBR df))).
  { apply sorted_by_ascending_id.
    pose proof (quantiles_ascending (map PBR df) Hcol) as Hq.
    unfold items, quantile_bands, BAND_QUANTILE. cbn [map] in *.
    apply StronglySorted_Sorted in Hq.
    apply Sorted_StronglySorted; [intros x y z; apply num_le_trans |].
    repeat match goal with
           | H : Sorted _ (_ :: _) |- _ =>
               apply Sorted_inv in H; destruct H
           | H : HdRel _ _ (_ :: _) |- _ => apply HdRel_inv in H
           end.
    repeat constructor; assumption. }
  eexists. split; [apply calculate_band_line_PBR; exact Hdf |].
  split; [| split; [exact Hsorted | rewrite Hsorted; reflexivity]].
  apply Forall_forall. intros x Hx. unfold quantile_bands in Hx.
  apply in_map_iff in Hx. destruct Hx as ([[q col] l] & <- & Hq).
  destruct (band_quantile_probabilities q col l Hq) as [H0 H1].
  destruct (quantile_value_in_range (map PBR df) q Hcol H0 H1)
    as (a & b & Ha & Hb & Hlo & Hhi).
  exists (quantile_value (map PBR df) q). split; [reflexivity |].
  apply Hin in Ha, Hb. rewrite Ha in Hlo. rewrite Hb in Hhi.
  apply Qle_antisym; assumption.
Qed.

Lemma constant_pbr_bands_coincide_witness :
  exists bands,
    calculate_band_line (repeat flat_row 3) "PBR" "005930" = ret bands
    /\ Forall (fun x => exists m, multiple (snd x) = Some m /\ m == 2) bands
    /\ sorted_by band_key (items bands) = items bands
    /\ labels_of (sorted_by band_key (items bands))
       = ["10%"; "25%"; "50%"; "75%"; "90%"].
Proof.
  apply (constant_pbr_bands_coincide (repeat flat_row 3) "005930" 2).
  - discriminate.
  - intros r Hr. apply repeat_spec in Hr. rewrite Hr. reflexivity.
Defined.
